(** * Accent Recognition UI: the [AppStore] session logic

    A shallow embedding of the MobX store [AppStore] (the richest of the
    four variants of [App.tsx]: capture, file upload, per-chunk re-record
    and synthesis) together with the part of the browser it talks to:
    [getUserMedia], [MediaRecorder], [fetch], [URL.createObjectURL] and
    the console.

    The store's methods are [async]: each runs up to its next [await] and
    leaves a continuation behind.  The embedding keeps these continuations
    in a task table; the user interface and the browser drive the store
    through events, one event running one synchronous block of the source. *)

From Stdlib Require Import String QArith.
From stdpp Require Import base list.

Open Scope string_scope.
Open Scope list_scope.
Open Scope nat_scope.

(** ** Data *)

(** [interface ChunkData].  A JavaScript [number] is carried around by the
    store and never computed with, so it is kept as a rational; [end] is a
    keyword and becomes [end_]. *)
Record ChunkData := {
  start : Q;
  end_ : Q;
  text : string;
  prediction : list (string * Q)
}.

(** A [Blob] (and a [File]) is its byte content; [new Blob(parts)]
    concatenates. *)
Definition Blob := list Byte.byte.
Definition blob_size (b : Blob) : nat := length b.
Definition new_Blob (parts : list Blob) : Blob := concat parts.

(** Streams, recorders, suspended functions and object URLs are named by
    the order in which the browser hands them out. *)
Abbreviation StreamId := nat.
Abbreviation RecorderId := nat.
Abbreviation TaskId := nat.
Abbreviation ObjectURL := nat.

(** The fields of [class AppStore].  An element of [transcriptionData] is
    [None] where the JavaScript array holds [undefined] (or a hole). *)
Record AppStore := {
  imageSrc : option string;
  audioSrc : option ObjectURL;
  isRecording : bool;
  isLoading : bool;
  errorMessage : option string;
  transcriptionData : list (option ChunkData);
  synthesizedAudioSrc : option ObjectURL;
  selectedAccent : string;
  rawText : string;
  mediaRecorder : option RecorderId;
  audioStream : option StreamId;
  audioChunks : list Blob;
  chunkBeingRecorded : option nat
}.

(** The [onstop] closure installed on a recorder: the one of
    [handleStartRecording], or the one of [handleStartChunkRecording] with
    its captured [index]. *)
Inductive StopHandler :=
| OnStopFull
| OnStopChunk (index : nat).

Inductive RecordingState := inactive | recording.

(** A [MediaRecorder] object.  [stop_queued] holds between the call of
    [stop()] and the delivery of the [stop] event. *)
Record MediaRecorder := {
  stream : StreamId;
  state : RecordingState;
  onstop : StopHandler;
  stop_queued : bool
}.

(** Which [try] block a pending [fetch] belongs to. *)
Inductive FetchCont :=
| KFull                (* handleStartRecording, onstop *)
| KFile                (* handleFileUpload *)
| KChunk (index : nat) (* handleStartChunkRecording, onstop *)
| KSynth.              (* handleSynthesize *)

(** A suspended [async] function. *)
Inductive Task :=
| TDone
| TGetUserMedia (k : StopHandler)  (* await navigator.mediaDevices.getUserMedia *)
| TFetch (k : FetchCont)           (* await fetch(...) *)
| TBody (k : FetchCont).           (* await response.json() / response.blob() *)

Inductive Request :=
| Predict (file : Blob)                       (* POST /predict *)
| Synthesize (text_ : string) (accent : string). (* POST /synthesize *)

(** The parsed body of a prediction response, with the shape the
    prediction service promises. *)
Record PredictData := {
  image_base64 : string;
  chunks : list ChunkData
}.

(** The store together with the browser state it depends on.
    [generation] is a ghost counter: it counts the calls of
    [setTranscriptionData] and no code reads it. *)
Record World := {
  store : AppStore;
  recorders : list MediaRecorder;
  tasks : list Task;
  streams : nat;                 (* streams handed out by getUserMedia *)
  stopped : list StreamId;       (* streams whose tracks were stopped, in order *)
  urls : list Blob;              (* object URLs created so far *)
  requests : list Request;       (* requests sent so far *)
  console : list string;         (* console.error lines *)
  generation : nat
}.

(** The chunk store of the specification is the field
    [transcriptionData]. *)
Abbreviation chunk_store w := (transcriptionData (store w)).

(** ** Field updates *)

Definition with_store (f : AppStore → AppStore) (w : World) : World :=
  {| store := f (store w); recorders := recorders w; tasks := tasks w;
     streams := streams w; stopped := stopped w; urls := urls w;
     requests := requests w; console := console w;
     generation := generation w |}.

Definition setIsRecording (value : bool) : World → World :=
  with_store (λ s,
    {| imageSrc := imageSrc s; audioSrc := audioSrc s; isRecording := value;
       isLoading := isLoading s; errorMessage := errorMessage s;
       transcriptionData := transcriptionData s;
       synthesizedAudioSrc := synthesizedAudioSrc s;
       selectedAccent := selectedAccent s; rawText := rawText s;
       mediaRecorder := mediaRecorder s; audioStream := audioStream s;
       audioChunks := audioChunks s;
       chunkBeingRecorded := chunkBeingRecorded s |}).

Definition setIsLoading (value : bool) : World → World :=
  with_store (λ s,
    {| imageSrc := imageSrc s; audioSrc := audioSrc s;
       isRecording := isRecording s; isLoading := value;
       errorMessage := errorMessage s;
       transcriptionData := transcriptionData s;
       synthesizedAudioSrc := synthesizedAudioSrc s;
       selectedAccent := selectedAccent s; rawText := rawText s;
       mediaRecorder := mediaRecorder s; audioStream := audioStream s;
       audioChunks := audioChunks s;
       chunkBeingRecorded := chunkBeingRecorded s |}).

Definition setImageSrc (value : option string) : World → World :=
  with_store (λ s,
    {| imageSrc := value; audioSrc := audioSrc s;
       isRecording := isRecording s; isLoading := isLoading s;
       errorMessage := errorMessage s;
       transcriptionData := transcriptionData s;
       synthesizedAudioSrc := synthesizedAudioSrc s;
       selectedAccent := selectedAccent s; rawText := rawText s;
       mediaRecorder := mediaRecorder s; audioStream := audioStream s;
       audioChunks := audioChunks s;
       chunkBeingRecorded := chunkBeingRecorded s |}).

Definition setAudioSrc (value : option ObjectURL) : World → World :=
  with_store (λ s,
    {| imageSrc := imageSrc s; audioSrc := value;
       isRecording := isRecording s; isLoading := isLoading s;
       errorMessage := errorMessage s;
       transcriptionData := transcriptionData s;
       synthesizedAudioSrc := synthesizedAudioSrc s;
       selectedAccent := selectedAccent s; rawText := rawText s;
       mediaRecorder := mediaRecorder s; audioStream := audioStream s;
       audioChunks := audioChunks s;
       chunkBeingRecorded := chunkBeingRecorded s |}).

Definition setErrorMessage (value : option string) : World → World :=
  with_store (λ s,
    {| imageSrc := imageSrc s; audioSrc := audioSrc s;
       isRecording := isRecording s; isLoading := isLoading s;
       errorMessage := value;
       transcriptionData := transcriptionData s;
       synthesizedAudioSrc := synthesizedAudioSrc s;
       selectedAccent := selectedAccent s; rawText := rawText s;
       mediaRecorder := mediaRecorder s; audioStream := audioStream s;
       audioChunks := audioChunks s;
       chunkBeingRecorded := chunkBeingRecorded s |}).

(** [setTranscriptionData] is the only writer of the chunk store; the
    ghost counter is bumped here. *)
Definition setTranscriptionData (value : list (option ChunkData)) (w : World)
  : World :=
  {| store :=
       let s := store w in
       {| imageSrc := imageSrc s; audioSrc := audioSrc s;
          isRecording := isRecording s; isLoading := isLoading s;
          errorMessage := errorMessage s;
          transcriptionData := value;
          synthesizedAudioSrc := synthesizedAudioSrc s;
          selectedAccent := selectedAccent s; rawText := rawText s;
          mediaRecorder := mediaRecorder s; audioStream := audioStream s;
          audioChunks := audioChunks s;
          chunkBeingRecorded := chunkBeingRecorded s |};
     recorders := recorders w; tasks := tasks w; streams := streams w;
     stopped := stopped w; urls := urls w; requests := requests w;
     console := console w; generation := S (generation w) |}.

Definition setSynthesizedAudioSrc (value : option ObjectURL) : World → World :=
  with_store (λ s,
    {| imageSrc := imageSrc s; audioSrc := audioSrc s;
       isRecording := isRecording s; isLoading := isLoading s;
       errorMessage := errorMessage s;
       transcriptionData := transcriptionData s;
       synthesizedAudioSrc := value;
       selectedAccent := selectedAccent s; rawText := rawText s;
       mediaRecorder := mediaRecorder s; audioStream := audioStream s;
       audioChunks := audioChunks s;
       chunkBeingRecorded := chunkBeingRecorded s |}).

Definition set_selectedAccent (value : string) : World → World :=
  with_store (λ s,
    {| imageSrc := imageSrc s; audioSrc := audioSrc s;
       isRecording := isRecording s; isLoading := isLoading s;
       errorMessage := errorMessage s;
       transcriptionData := transcriptionData s;
       synthesizedAudioSrc := synthesizedAudioSrc s;
       selectedAccent := value; rawText := rawText s;
       mediaRecorder := mediaRecorder s; audioStream := audioStream s;
       audioChunks := audioChunks s;
       chunkBeingRecorded := chunkBeingRecorded s |}).

Definition set_rawText (value : string) : World → World :=
  with_store (λ s,
    {| imageSrc := imageSrc s; audioSrc := audioSrc s;
       isRecording := isRecording s; isLoading := isLoading s;
       errorMessage := errorMessage s;
       transcriptionData := transcriptionData s;
       synthesizedAudioSrc := synthesizedAudioSrc s;
       selectedAccent := selectedAccent s; rawText := value;
       mediaRecorder := mediaRecorder s; audioStream := audioStream s;
       audioChunks := audioChunks s;
       chunkBeingRecorded := chunkBeingRecorded s |}).

Definition set_mediaRecorder (value : option RecorderId) : World → World :=
  with_store (λ s,
    {| imageSrc := imageSrc s; audioSrc := audioSrc s;
       isRecording := isRecording s; isLoading := isLoading s;
       errorMessage := errorMessage s;
       transcriptionData := transcriptionData s;
       synthesizedAudioSrc := synthesizedAudioSrc s;
       selectedAccent := selectedAccent s; rawText := rawText s;
       mediaRecorder := value; audioStream := audioStream s;
       audioChunks := audioChunks s;
       chunkBeingRecorded := chunkBeingRecorded s |}).

Definition set_audioStream (value : option StreamId) : World → World :=
  with_store (λ s,
    {| imageSrc := imageSrc s; audioSrc := audioSrc s;
       isRecording := isRecording s; isLoading := isLoading s;
       errorMessage := errorMessage s;
       transcriptionData := transcriptionData s;
       synthesizedAudioSrc := synthesizedAudioSrc s;
       selectedAccent := selectedAccent s; rawText := rawText s;
       mediaRecorder := mediaRecorder s; audioStream := value;
       audioChunks := audioChunks s;
       chunkBeingRecorded := chunkBeingRecorded s |}).

Definition set_audioChunks (value : list Blob) : World → World :=
  with_store (λ s,
    {| imageSrc := imageSrc s; audioSrc := audioSrc s;
       isRecording := isRecording s; isLoading := isLoading s;
       errorMessage := errorMessage s;
       transcriptionData := transcriptionData s;
       synthesizedAudioSrc := synthesizedAudioSrc s;
       selectedAccent := selectedAccent s; rawText := rawText s;
       mediaRecorder := mediaRecorder s; audioStream := audioStream s;
       audioChunks := value;
       chunkBeingRecorded := chunkBeingRecorded s |}).

Definition set_chunkBeingRecorded (value : option nat) : World → World :=
  with_store (λ s,
    {| imageSrc := imageSrc s; audioSrc := audioSrc s;
       isRecording := isRecording s; isLoading := isLoading s;
       errorMessage := errorMessage s;
       transcriptionData := transcriptionData s;
       synthesizedAudioSrc := synthesizedAudioSrc s;
       selectedAccent := selectedAccent s; rawText := rawText s;
       mediaRecorder := mediaRecorder s; audioStream := audioStream s;
       audioChunks := audioChunks s;
       chunkBeingRecorded := value |}).

Definition set_recorders (value : list MediaRecorder) (w : World) : World :=
  {| store := store w; recorders := value; tasks := tasks w;
     streams := streams w; stopped := stopped w; urls := urls w;
     requests := requests w; console := console w;
     generation := generation w |}.

Definition set_tasks (value : list Task) (w : World) : World :=
  {| store := store w; recorders := recorders w; tasks := value;
     streams := streams w; stopped := stopped w; urls := urls w;
     requests := requests w; console := console w;
     generation := generation w |}.

Definition set_streams (value : nat) (w : World) : World :=
  {| store := store w; recorders := recorders w; tasks := tasks w;
     streams := value; stopped := stopped w; urls := urls w;
     requests := requests w; console := console w;
     generation := generation w |}.

Definition set_stopped (value : list StreamId) (w : World) : World :=
  {| store := store w; recorders := recorders w; tasks := tasks w;
     streams := streams w; stopped := value; urls := urls w;
     requests := requests w; console := console w;
     generation := generation w |}.

Definition set_urls (value : list Blob) (w : World) : World :=
  {| store := store w; recorders := recorders w; tasks := tasks w;
     streams := streams w; stopped := stopped w; urls := value;
     requests := requests w; console := console w;
     generation := generation w |}.

Definition set_requests (value : list Request) (w : World) : World :=
  {| store := store w; recorders := recorders w; tasks := tasks w;
     streams := streams w; stopped := stopped w; urls := urls w;
     requests := value; console := console w;
     generation := generation w |}.

Definition set_console (value : list string) (w : World) : World :=
  {| store := store w; recorders := recorders w; tasks := tasks w;
     streams := streams w; stopped := stopped w; urls := urls w;
     requests := requests w; console := value;
     generation := generation w |}.

Notation "w |> f" := (f w) (at level 45, left associativity, only parsing).

(** ** The browser *)

(** [console.error(msg, ...)]: the first argument is kept. *)
Definition console_error (msg : string) (w : World) : World :=
  set_console (console w ++ [msg]) w.

(** [URL.createObjectURL(blob)]: the new URL is the next free slot of
    [urls], that is [length (urls w)] before the call. *)
Definition createObjectURL (blob : Blob) (w : World) : World :=
  set_urls (urls w ++ [blob]) w.

(** An [await]: the rest of the function is parked as a task; its id is
    its position in the table. *)
Definition await (t : Task) (w : World) : World :=
  set_tasks (tasks w ++ [t]) w.

(** A promise settles: the task moves on, or is done. *)
Definition settle (t : TaskId) (next : Task) (w : World) : World :=
  set_tasks (<[t := next]> (tasks w)) w.

(** [await fetch(url, ...)]: the request leaves, the caller is parked. *)
Definition fetch (req : Request) (k : FetchCont) (w : World) : World :=
  w |> set_requests (requests w ++ [req]) |> await (TFetch k).

(** [new MediaRecorder(stream)] with its [onstop] handler attached. *)
Definition new_MediaRecorder (s : StreamId) (h : StopHandler) (w : World)
  : World :=
  set_recorders
    (recorders w ++
       [{| stream := s; state := inactive; onstop := h;
           stop_queued := false |}]) w.

(** [MediaRecorder.start()]. *)
Definition recorder_start (r : RecorderId) (w : World) : World :=
  match recorders w !! r with
  | Some m =>
      set_recorders
        (<[r := {| stream := stream m; state := recording;
                   onstop := onstop m; stop_queued := stop_queued m |}]>
           (recorders w)) w
  | None => w
  end.

(** [MediaRecorder.stop()]: a recording recorder becomes inactive and its
    [stop] event is queued; on an inactive recorder the call does nothing. *)
Definition recorder_stop (r : RecorderId) (w : World) : World :=
  match recorders w !! r with
  | Some m =>
      match state m with
      | recording =>
          set_recorders
            (<[r := {| stream := stream m; state := inactive;
                       onstop := onstop m; stop_queued := true |}]>
               (recorders w)) w
      | inactive => w
      end
  | None => w
  end.

(** [newData[index] = value] on a JavaScript array: in range the slot is
    overwritten, out of range the array grows and the gap reads
    [undefined]. *)
Definition array_assign {A} (index : nat) (value : option A)
    (l : list (option A)) : list (option A) :=
  if index <? length l then <[index := value]> l
  else l ++ replicate (index - length l) None ++ [value].

(** [!text] on a string: true exactly for the empty string. *)
Definition falsy (s : string) : bool :=
  match s with EmptyString => true | _ => false end.

(** ** The methods of [AppStore] *)

(** [handleStartRecording], up to [await getUserMedia]. *)
Definition handleStartRecording (w : World) : World :=
  w |> setIsRecording true
    |> setImageSrc None
    |> setErrorMessage None
    |> setTranscriptionData []
    |> await (TGetUserMedia OnStopFull).

(** [handleStopRecording]. *)
Definition handleStopRecording (w : World) : World :=
  match mediaRecorder (store w) with
  | Some r =>
      if isRecording (store w)
      then w |> recorder_stop r |> setIsRecording false
      else w
  | None => w
  end.

(** [handleStartStopRecording]. *)
Definition handleStartStopRecording (w : World) : World :=
  if isRecording (store w) then handleStopRecording w
  else handleStartRecording w.

(** [handleStartChunkRecording(index)], up to [await getUserMedia]. *)
Definition handleStartChunkRecording (index : nat) (w : World) : World :=
  if isRecording (store w) then w
  else
    w |> set_chunkBeingRecorded (Some index)
      |> setIsRecording true
      |> await (TGetUserMedia (OnStopChunk index)).

(** Both recording methods after [getUserMedia] resolves: the stream is
    stored, a recorder is built with the method's [onstop] closure, the
    fragment list is reset and the recorder is started.  The constructor
    and [start()] are taken not to throw. *)
Definition getUserMedia_then (h : StopHandler) (w : World) : World :=
  let s := streams w in
  let r := length (recorders w) in
  w |> set_streams (S s)
    |> set_audioStream (Some s)
    |> new_MediaRecorder s h
    |> set_audioChunks []
    |> set_mediaRecorder (Some r)
    |> recorder_start r.

(** Both recording methods when [getUserMedia] rejects: the outer
    [catch]. *)
Definition getUserMedia_catch (h : StopHandler) (w : World) : World :=
  w |> console_error
         match h with
         | OnStopFull => "Error starting recording:"
         | OnStopChunk _ => "Error starting chunk recording:"
         end
    |> setIsRecording false.

(** [mediaRecorder.ondataavailable]. *)
Definition ondataavailable (data : Blob) (w : World) : World :=
  if 0 <? blob_size data
  then set_audioChunks (audioChunks (store w) ++ [data]) w
  else w.

(** [mediaRecorder.onstop] of [handleStartRecording], up to
    [await fetch]. *)
Definition recording_onstop (w : World) : World :=
  let audioBlob := new_Blob (audioChunks (store w)) in
  if blob_size audioBlob =? 0
  then w |> console_error "Recorded audio blob is empty."
  else
    let audioURL := length (urls w) in
    w |> createObjectURL audioBlob
      |> setAudioSrc (Some audioURL)
      |> setIsLoading true
      |> fetch (Predict audioBlob) KFull.

(** [mediaRecorder.onstop] of [handleStartChunkRecording(index)], up to
    [await fetch]. *)
Definition chunk_onstop (index : nat) (w : World) : World :=
  let audioBlob := new_Blob (audioChunks (store w)) in
  if blob_size audioBlob =? 0
  then w |> console_error "Recorded audio blob is empty."
  else
    w |> setIsLoading true
      |> fetch (Predict audioBlob) (KChunk index).

Definition run_onstop (h : StopHandler) (w : World) : World :=
  match h with
  | OnStopFull => recording_onstop w
  | OnStopChunk index => chunk_onstop index w
  end.

(** [handleFileUpload(file)], up to [await fetch].  The guard [if (file)]
    holds for every file the input element hands over. *)
Definition handleFileUpload (file : Blob) (w : World) : World :=
  let audioURL := length (urls w) in
  w |> setImageSrc None
    |> setErrorMessage None
    |> setTranscriptionData []
    |> createObjectURL file
    |> setAudioSrc (Some audioURL)
    |> setIsLoading true
    |> fetch (Predict file) KFile.

(** [handleSynthesize], up to [await fetch]. *)
Definition handleSynthesize (w : World) : World :=
  let text := rawText (store w) in
  let accent := selectedAccent (store w) in
  if falsy text || falsy accent
  then w |> setErrorMessage (Some "Text or accent is missing.")
  else
    w |> setIsLoading true
      |> setErrorMessage None
      |> setSynthesizedAudioSrc None
      |> fetch (Synthesize text accent) KSynth.

(** [if (this.audioStream) { ...getTracks().forEach(track => track.stop());
    this.audioStream = null; }] *)
Definition release_audioStream (w : World) : World :=
  match audioStream (store w) with
  | Some s => w |> set_stopped (stopped w ++ [s]) |> set_audioStream None
  | None => w
  end.

(** The [runInAction] block after [await response.json()]. *)
Definition json_then (k : FetchCont) (data : PredictData) (w : World)
  : World :=
  match k with
  | KFull | KFile =>
      w |> setImageSrc
             (Some (String.append "data:image/png;base64,"
                      (image_base64 data)))
        |> setTranscriptionData (Some <$> chunks data)
        |> set_rawText (String.concat " " (text <$> chunks data))
  | KChunk index =>
      let prevData := transcriptionData (store w) in
      let replacedIndex := index in
      let newData := array_assign replacedIndex (head (chunks data)) prevData in
      w |> setTranscriptionData newData
  | KSynth => w
  end.

(** After [await response.blob()] in [handleSynthesize]. *)
Definition blob_then (audioBlob : Blob) (w : World) : World :=
  let audioURL := length (urls w) in
  w |> createObjectURL audioBlob
    |> setSynthesizedAudioSrc (Some audioURL).

(** The [catch] block of each [try]. *)
Definition fetch_catch (k : FetchCont) (w : World) : World :=
  match k with
  | KFull | KChunk _ =>
      w |> console_error "Error uploading audio:"
        |> setErrorMessage (Some "Error uploading audio")
  | KFile =>
      w |> console_error "Error uploading file:"
        |> setErrorMessage (Some "Error uploading file")
  | KSynth =>
      w |> console_error "Error synthesizing audio:"
        |> setErrorMessage (Some "Error synthesizing audio")
  end.

(** The [finally] block of each [try]. *)
Definition fetch_finally (k : FetchCont) (w : World) : World :=
  match k with
  | KFull => w |> setIsLoading false |> release_audioStream
  | KFile => w |> setIsLoading false
  | KChunk _ =>
      w |> setIsLoading false
        |> release_audioStream
        |> set_chunkBeingRecorded None
        |> setIsRecording false
  | KSynth => w |> setIsLoading false
  end.

(** ** Events *)

(** What the user can do through the rendered page, and what the browser
    can deliver.  [EnvFetch t None] is a rejected [fetch];
    [EnvFetch t (Some ok)] a response with [response.ok = ok];
    [EnvJson t None] and [EnvBlob t None] are rejected body reads. *)
Inductive Event :=
| UiStartStop
| UiFileUpload (file : Blob)
| UiSynthesize
| UiStartChunkRecording (index : nat)
| UiSelectAccent (value : string)
| UiPlayChunk (index : nat)
| EnvGetUserMedia (t : TaskId) (granted : bool)
| EnvDataAvailable (r : RecorderId) (data : Blob)
| EnvStop (r : RecorderId)
| EnvFetch (t : TaskId) (response : option bool)
| EnvJson (t : TaskId) (data : option PredictData)
| EnvBlob (t : TaskId) (body : option Blob).

Definition is_synth (k : FetchCont) : bool :=
  match k with KSynth => true | _ => false end.

(** One event: one synchronous block of the source.  An event that has
    nothing to resume (no such task, no queued [stop]) changes nothing.
    [handlePlayChunk] only drives an [Audio] element and touches no field. *)
Definition step (w : World) (e : Event) : World :=
  match e with
  | UiStartStop => handleStartStopRecording w
  | UiFileUpload file => handleFileUpload file w
  | UiSynthesize => handleSynthesize w
  | UiStartChunkRecording index => handleStartChunkRecording index w
  | UiSelectAccent value => set_selectedAccent value w
  | UiPlayChunk _ => w
  | EnvGetUserMedia t granted =>
      match tasks w !! t with
      | Some (TGetUserMedia h) =>
          if granted
          then w |> settle t TDone |> getUserMedia_then h
          else w |> settle t TDone |> getUserMedia_catch h
      | _ => w
      end
  | EnvDataAvailable r data =>
      match recorders w !! r with
      | Some m =>
          match state m, stop_queued m with
          | inactive, false => w
          | _, _ => ondataavailable data w
          end
      | None => w
      end
  | EnvStop r =>
      match recorders w !! r with
      | Some m =>
          if stop_queued m
          then
            w |> set_recorders
                   (<[r := {| stream := stream m; state := state m;
                              onstop := onstop m; stop_queued := false |}]>
                      (recorders w))
              |> run_onstop (onstop m)
          else w
      | None => w
      end
  | EnvFetch t response =>
      match tasks w !! t with
      | Some (TFetch k) =>
          match response with
          | Some true => w |> settle t (TBody k)
          | _ => w |> settle t TDone |> fetch_catch k |> fetch_finally k
          end
      | _ => w
      end
  | EnvJson t data =>
      match tasks w !! t with
      | Some (TBody k) =>
          if is_synth k then w
          else
            match data with
            | Some d =>
                w |> settle t TDone |> json_then k d |> fetch_finally k
            | None =>
                w |> settle t TDone |> fetch_catch k |> fetch_finally k
            end
      | _ => w
      end
  | EnvBlob t body =>
      match tasks w !! t with
      | Some (TBody KSynth) =>
          match body with
          | Some b =>
              w |> settle t TDone |> blob_then b |> fetch_finally KSynth
          | None =>
              w |> settle t TDone |> fetch_catch KSynth
                |> fetch_finally KSynth
          end
      | _ => w
      end
  end.

Definition run (w : World) (evs : list Event) : World :=
  foldl step w evs.

(** [new AppStore()] in a fresh page. *)
Definition init : World :=
  {| store :=
       {| imageSrc := None; audioSrc := None; isRecording := false;
          isLoading := false; errorMessage := None;
          transcriptionData := []; synthesizedAudioSrc := None;
          selectedAccent := "british"; rawText := "";
          mediaRecorder := None; audioStream := None; audioChunks := [];
          chunkBeingRecorded := None |};
     recorders := []; tasks := []; streams := 0; stopped := [];
     urls := []; requests := []; console := []; generation := 0 |}.

(** ** What the page offers *)

Definition recorder_live (m : MediaRecorder) : bool :=
  match state m, stop_queued m with
  | inactive, false => false
  | _, _ => true
  end.

Definition task_pending (t : Task) : bool :=
  match t with TDone => false | _ => true end.

(** The asynchronous operations under way: suspended functions, and
    recorders that record or still owe their [stop] event. *)
Definition outstanding (w : World) : nat :=
  length (filter (λ t, task_pending t = true) (tasks w)) +
  length (filter (λ m, recorder_live m = true) (recorders w)).

(** The render function of [App]: the record button and the file input are
    always there; the table (play, re-record), the accent selector and the
    synthesize button only while [isLoading] is false; a re-record button is
    disabled while [isRecording].  The browser delivers only what is due. *)
Definition enabled (w : World) (e : Event) : bool :=
  let s := store w in
  match e with
  | UiStartStop => true
  | UiFileUpload _ => true
  | UiSynthesize => negb (isLoading s)
  | UiStartChunkRecording index =>
      negb (isLoading s) && negb (isRecording s)
      && (index <? length (transcriptionData s))
  | UiSelectAccent value =>
      negb (isLoading s)
      && (String.eqb value "british" || String.eqb value "us")
  | UiPlayChunk index =>
      negb (isLoading s) && (index <? length (transcriptionData s))
  | EnvGetUserMedia t _ =>
      match tasks w !! t with Some (TGetUserMedia _) => true | _ => false end
  | EnvDataAvailable r _ =>
      match recorders w !! r with Some m => recorder_live m | None => false end
  | EnvStop r =>
      match recorders w !! r with Some m => stop_queued m | None => false end
  | EnvFetch t _ =>
      match tasks w !! t with Some (TFetch _) => true | _ => false end
  | EnvJson t _ =>
      match tasks w !! t with
      | Some (TBody k) => negb (is_synth k)
      | _ => false
      end
  | EnvBlob t _ =>
      match tasks w !! t with Some (TBody KSynth) => true | _ => false end
  end.

(** A sequence of events the page and the browser can really produce,
    starting in [w]. *)
Fixpoint feasible (w : World) (evs : list Event) : bool :=
  match evs with
  | [] => true
  | e :: evs' => enabled w e && feasible (step w e) evs'
  end.

(** The phase the page shows, read off the two flags of the store: the
    record button reads "Stop Recording" while [isRecording], the body
    reads "Loading..." while [isLoading] (upload, chunk upload and
    synthesis share the flag), and the table appears once there are
    chunks. *)
Inductive Phase := Idle | Capturing | ChunkCapturing | Loading | Reviewing.

Definition phase (w : World) : Phase :=
  let s := store w in
  if isRecording s then
    match chunkBeingRecorded s with
    | Some _ => ChunkCapturing
    | None => Capturing
    end
  else if isLoading s then Loading
  else
    match transcriptionData s with
    | [] => Idle
    | _ :: _ => Reviewing
    end.

(** ** Full uploads *)

(** The two [try] blocks that replace the whole transcript. *)
Definition is_full (k : FetchCont) : bool :=
  match k with KFull | KFile => true | _ => false end.

(** Does [e], delivered in [w], hand a parsed full-upload response to the
    store? *)
Definition completes_full_upload (w : World) (e : Event) : bool :=
  match e with
  | EnvJson t (Some _) =>
      match tasks w !! t with
      | Some (TBody k) => is_full k
      | _ => false
      end
  | _ => false
  end.

(** No event of [evs], run from [w], completes a full upload. *)
Fixpoint no_full_upload (w : World) (evs : list Event) : bool :=
  match evs with
  | [] => true
  | e :: evs' =>
      negb (completes_full_upload w e) && no_full_upload (step w e) evs'
  end.

(** ** Sample sessions *)

Definition chunk_hi : ChunkData :=
  {| start := 0; end_ := 1; text := "hi";
     prediction := [("british", 9 # 10); ("us", 1 # 10)] |}.
Definition chunk_there : ChunkData :=
  {| start := 1; end_ := 2; text := "there";
     prediction := [("british", 7 # 10); ("us", 3 # 10)] |}.
Definition chunk_x : ChunkData :=
  {| start := 2; end_ := 3; text := "x";
     prediction := [("british", 5 # 10); ("us", 5 # 10)] |}.
Definition chunk_there_again : ChunkData :=
  {| start := 1; end_ := 2; text := "there again";
     prediction := [("british", 4 # 10); ("us", 6 # 10)] |}.
Definition chunk_good : ChunkData :=
  {| start := 0; end_ := 2; text := "good";
     prediction := [("british", 2 # 10); ("us", 8 # 10)] |}.
Definition chunk_morning : ChunkData :=
  {| start := 2; end_ := 4; text := "morning";
     prediction := [("british", 3 # 10); ("us", 7 # 10)] |}.
Definition chunk_silent : ChunkData :=
  {| start := 0; end_ := 1; text := ""; prediction := [] |}.

Definition upload3 : PredictData :=
  {| image_base64 := "iVBORw0KGgo=";
     chunks := [chunk_hi; chunk_there; chunk_x] |}.
Definition upload2 : PredictData :=
  {| image_base64 := "iVBORw0KGgo=";
     chunks := [chunk_good; chunk_morning] |}.
Definition rerecord1 : PredictData :=
  {| image_base64 := "iVBORw0KGgo="; chunks := [chunk_there_again] |}.
Definition nothing_heard : PredictData :=
  {| image_base64 := "iVBORw0KGgo="; chunks := [] |}.
Definition silence : PredictData :=
  {| image_base64 := "iVBORw0KGgo="; chunks := [chunk_silent] |}.

Definition file_a : Blob := [Byte.x52; Byte.x49; Byte.x46; Byte.x46].
Definition file_b : Blob := [Byte.x4f; Byte.x67; Byte.x67; Byte.x53].
Definition fragment : Blob := [Byte.x1a; Byte.x45].

(** A three-chunk transcript is on the page. *)
Definition reviewing3 : World :=
  run init [UiFileUpload file_a; EnvFetch 0 (Some true);
            EnvJson 0 (Some upload3)].

(** From [reviewing3], after "Re-record" on chunk 1: the microphone is
    granted, the user stops, one fragment arrives, the prediction service
    answers and the body is about to be parsed (task 2). *)
Definition rerecord_events : list Event :=
  [EnvGetUserMedia 1 true; UiStartStop; EnvDataAvailable 0 fragment;
   EnvStop 0; EnvFetch 2 (Some true)].

(** The same re-record, but a second file is uploaded and answered while
    the microphone is still open; the re-record's body is task 3. *)
Definition overtaken_events : list Event :=
  [EnvGetUserMedia 1 true; UiFileUpload file_b; EnvFetch 2 (Some true);
   EnvJson 2 (Some upload2); UiStartStop; EnvDataAvailable 0 fragment;
   EnvStop 0; EnvFetch 3 (Some true)].

(** A capture that is stopped before anything was recorded. *)
Definition empty_capture : list Event :=
  [UiStartStop; EnvGetUserMedia 0 true; UiStartStop;
   EnvDataAvailable 0 []; EnvStop 0].

(** A capture with one fragment, up to the parsed answer. *)
Definition good_capture : list Event :=
  [UiStartStop; EnvGetUserMedia 0 true; UiStartStop;
   EnvDataAvailable 0 fragment; EnvStop 0; EnvFetch 1 (Some true);
   EnvJson 1 (Some upload3)].

(** A re-record of chunk 1 that is stopped before anything was
    recorded. *)
Definition empty_rerecord : list Event :=
  [UiFileUpload file_a; EnvFetch 0 (Some true); EnvJson 0 (Some upload3);
   UiStartChunkRecording 1; EnvGetUserMedia 1 true; UiStartStop;
   EnvDataAvailable 0 []; EnvStop 0].

(** A re-record carried through on its own, after "Re-record" was pressed
    in [w0]: the microphone is granted, the user stops, one fragment
    arrives, the prediction service answers and the body is about to be
    parsed. *)
Definition rerecord_session (w0 : World) (fragment : Blob) : list Event :=
  let t := length (tasks w0) in
  let r := length (recorders w0) in
  [EnvGetUserMedia t true; UiStartStop; EnvDataAvailable r fragment;
   EnvStop r; EnvFetch (S t) (Some true)].

(** The record button pressed while recorder [r] records and nothing was
    captured: [stop()], the final (empty) [dataavailable], then [stop]. *)
Definition stop_with_nothing (r : RecorderId) : list Event :=
  [UiStartStop; EnvDataAvailable r []; EnvStop r].

(** A silent file: its one chunk has no text. *)
Definition reviewing_silence : World :=
  run init [UiFileUpload file_a; EnvFetch 0 (Some true);
            EnvJson 0 (Some silence)].

(** ** Playing a chunk *)

(** An [Audio] element made by [handlePlayChunk]: [listener] holds the
    [end] captured by the registered [handleTimeUpdate], until it is
    removed. *)
Record Audio := {
  audio_src : ObjectURL;
  currentTime : Q;
  paused : bool;
  listener : option Q
}.

(** [handlePlayChunk(start, end)]: nothing without an audio source;
    otherwise a new element is positioned at [start], given the listener
    and played. *)
Definition handlePlayChunk (start end_ : Q) (w : World) : option Audio :=
  match audioSrc (store w) with
  | Some url =>
      Some {| audio_src := url; currentTime := start; paused := false;
              listener := Some end_ |}
  | None => None
  end.

(** [handleTimeUpdate]: at or past [end] the element is paused and the
    listener removes itself. *)
Definition handleTimeUpdate (end_ : Q) (audio : Audio) : Audio :=
  if Qle_bool end_ (currentTime audio)
  then {| audio_src := audio_src audio; currentTime := currentTime audio;
          paused := true; listener := None |}
  else audio.

(** The browser reports a playback position: a playing element moves
    there and its listener, if any, runs; a paused one stays put. *)
Definition timeupdate (audio : Audio) (position : Q) : Audio :=
  if paused audio then audio
  else
    let moved := {| audio_src := audio_src audio; currentTime := position;
                    paused := false; listener := listener audio |} in
    match listener audio with
    | Some end_ => handleTimeUpdate end_ moved
    | None => moved
    end.

Definition playback (audio : Audio) (positions : list Q) : Audio :=
  foldl timeupdate audio positions.

(** ** Whole sessions *)

(** The events of a recording carried through on its own once the
    microphone has been asked for (task [n], next recorder [r]): the
    microphone is granted, the user stops, one fragment arrives, the
    [stop] event is delivered. *)
Definition recording_events (n : TaskId) (r : RecorderId) (b : Blob)
  : list Event :=
  [EnvGetUserMedia n true; UiStartStop; EnvDataAvailable r b; EnvStop r].

(** The world such a recording leaves when its [stop] event is
    delivered, before [onstop] runs. *)
Definition recorded (h : StopHandler) (b : Blob) (n : TaskId) (w : World)
  : World :=
  w |> settle n TDone
    |> set_streams (S (streams w))
    |> set_audioStream (Some (streams w))
    |> set_mediaRecorder (Some (length (recorders w)))
    |> setIsRecording false
    |> set_audioChunks [b]
    |> set_recorders
         (recorders w ++
            [{| stream := streams w; state := inactive; onstop := h;
                stop_queued := false |}]).

(** A request is answered and its body parses. *)
Definition answered (t : TaskId) (data : PredictData) : list Event :=
  [EnvFetch t (Some true); EnvJson t (Some data)].

(** The ways a prediction request fails: the request is rejected, the
    response is not ok, the body does not parse. *)
Definition predict_failures (t : TaskId) : list (list Event) :=
  [[EnvFetch t None]; [EnvFetch t (Some false)];
   [EnvFetch t (Some true); EnvJson t None]].

(** The same for a synthesis request. *)
Definition synth_failures (t : TaskId) : list (list Event) :=
  [[EnvFetch t None]; [EnvFetch t (Some false)];
   [EnvFetch t (Some true); EnvBlob t None]].

(** A file is chosen in [w]; [tail] settles its request. *)
Definition upload_then (w : World) (file : Blob) (tail : list Event)
  : World :=
  run w (UiFileUpload file :: tail).

Definition uploaded (w : World) (file : Blob) (data : PredictData) : World :=
  upload_then w file (answered (length (tasks w)) data).

(** A capture is started in [w] and recorded; [tail] settles its
    request. *)
Definition capture_then (w : World) (b : Blob) (tail : list Event) : World :=
  run w (UiStartStop
           :: recording_events (length (tasks w)) (length (recorders w)) b
           ++ tail).

Definition captured (w : World) (b : Blob) (data : PredictData) : World :=
  capture_then w b (answered (S (length (tasks w))) data).

(** Chunk [index] is re-recorded in [w]; [tail] settles the request. *)
Definition rerecord_then (w : World) (index : nat) (b : Blob)
    (tail : list Event) : World :=
  run w (UiStartChunkRecording index
           :: recording_events (length (tasks w)) (length (recorders w)) b
           ++ tail).

Definition rerecorded (w : World) (index : nat) (b : Blob)
    (data : PredictData) : World :=
  rerecord_then w index b (answered (S (length (tasks w))) data).

(** A synthesis is requested in [w]; [tail] settles its request. *)
Definition synthesize_then (w : World) (tail : list Event) : World :=
  run w (UiSynthesize :: tail).

Definition synthesized (w : World) (audio : Blob) : World :=
  synthesize_then w
    [EnvFetch (length (tasks w)) (Some true);
     EnvBlob (length (tasks w)) (Some audio)].

(** The microphone is asked for in [w] and refused. *)
Definition capture_denied (w : World) : World :=
  run w [UiStartStop; EnvGetUserMedia (length (tasks w)) false].

Definition rerecord_denied (w : World) (index : nat) : World :=
  run w [UiStartChunkRecording index;
         EnvGetUserMedia (length (tasks w)) false].

(** From [reviewing3], after "Re-record" on chunk 2: a one-chunk file is
    uploaded and answered while the microphone is still open; the
    re-record's body is task 3. *)
Definition shortened_events : list Event :=
  [EnvGetUserMedia 1 true; UiFileUpload file_b; EnvFetch 2 (Some true);
   EnvJson 2 (Some silence); UiStartStop; EnvDataAvailable 0 fragment;
   EnvStop 0; EnvFetch 3 (Some true)].

(** Chunk 1 of [reviewing3] is being re-recorded. *)
Definition rerecording1 : World :=
  run reviewing3 [UiStartChunkRecording 1; EnvGetUserMedia 1 true].

(** ** Invariants *)

(** Every fragment the store keeps has content. *)
Definition fragments_nonempty (w : World) : Prop :=
  Forall (λ b, 0 < blob_size b) (audioChunks (store w)).

(** No stream was stopped twice, every stopped stream was handed out, and
    the stream the store holds was handed out and is not stopped. *)
Definition streams_ok (w : World) : Prop :=
  NoDup (stopped w) ∧
  Forall (λ s, s < streams w) (stopped w) ∧
  ∀ s, audioStream (store w) = Some s → s < streams w ∧ s ∉ stopped w.

(** The selected accent is one of the two options of the selector. *)
Definition accent_offered (w : World) : Prop :=
  selectedAccent (store w) = "british" ∨ selectedAccent (store w) = "us".

(** The messages the store can show. *)
Definition known_message (m : option string) : Prop :=
  m = None ∨ m = Some "Error uploading audio" ∨
  m = Some "Error uploading file" ∨ m = Some "Error synthesizing audio" ∨
  m = Some "Text or accent is missing.".

(** ** Following one re-record through a session *)

(** How an entry of the task table can change: not at all, to done, or
    from an awaited response to its awaited body. *)
Inductive evolves : Task → Task → Prop :=
| evolves_same (x : Task) : evolves x x
| evolves_done (x : Task) : evolves x TDone
| evolves_body (k : FetchCont) : evolves (TFetch k) (TBody k).

(** A re-record of chunk 1 of [reviewing3] with other activity on the
    page in between: before the microphone is granted the accent is
    changed and chunk 0 is played. *)
Definition mixed_wa : World :=
  run (step reviewing3 (UiStartChunkRecording 1))
    [UiSelectAccent "us"; UiPlayChunk 0].
Definition mixed_wb : World :=
  run (step mixed_wa (EnvGetUserMedia (length (tasks reviewing3)) true))
    [UiStartStop; EnvDataAvailable 0 fragment].
Definition mixed_wc : World :=
  run (step mixed_wb (EnvStop (length (recorders mixed_wa)))) [].
Definition mixed_wd : World :=
  run (step mixed_wc (EnvFetch (length (tasks mixed_wb)) (Some true))) [].

(** The joined transcript text of the specification: the texts of the
    chunks now in the chunk store, joined by spaces. *)
Definition joined_text (w : World) : string :=
  String.concat " " (text <$> omap id (chunk_store w)).

Definition upload1 : PredictData :=
  {| image_base64 := "iVBORw0KGgo="; chunks := [chunk_hi] |}.

(** A one-chunk transcript whose only chunk is re-recorded and comes
    back without text. *)
Definition silenced_events : list Event :=
  [UiFileUpload file_a; EnvFetch 0 (Some true); EnvJson 0 (Some upload1);
   UiStartChunkRecording 0; EnvGetUserMedia 1 true; UiStartStop;
   EnvDataAvailable 0 fragment; EnvStop 0; EnvFetch 2 (Some true);
   EnvJson 2 (Some silence)].

(** ** Proof tools *)

(** [w'] comes after [w] and every write to the chunk store in between
    was counted. *)
Definition counted (w w' : World) : Prop :=
  generation w ≤ generation w' ∧
  (generation w' = generation w → chunk_store w' = chunk_store w).

(** Select the branch of [step] for the event at hand. *)
Ltac open_step := unfold step, run_onstop; cbv beta iota.

(** Open the methods down to their field updates, which stay folded. *)
Ltac open_methods :=
  unfold handleStartStopRecording, handleStopRecording,
    handleStartRecording, handleFileUpload, handleStartChunkRecording,
    handleSynthesize, getUserMedia_then, getUserMedia_catch,
    ondataavailable, recording_onstop, chunk_onstop, json_then,
    fetch_catch, fetch_finally, release_audioStream, recorder_start,
    recorder_stop;
  cbv beta iota zeta.

Ltac follow_branches := open_step; open_methods; repeat case_match.

(** Resume the task whose entry in the table is given by [Ht]. *)
Ltac resume Ht :=
  open_step; rewrite Ht; unfold is_synth; cbv beta iota.

(** ** The chunk store and its write counter *)

Lemma counted_refl (w : World) : counted w w.
Proof. split; [lia | reflexivity]. Qed.

Lemma counted_same (w w0 w' : World) :
  generation w' = generation w →
  chunk_store w' = chunk_store w →
  counted w0 w → counted w0 w'.
Proof.
  intros Hg Hc [Hle Heq]. unfold counted. rewrite Hg, Hc. by split.
Qed.

Lemma counted_setTranscriptionData (value : list (option ChunkData))
    (w0 w : World) :
  counted w0 w → counted w0 (setTranscriptionData value w).
Proof. intros [Hle Heq]. split; simpl; [lia | intros; lia]. Qed.

(** Walk back through a chain of field updates to the world it started
    from: every link but [setTranscriptionData] leaves the counter and the
    chunk store as they are. *)
Ltac counted_chain :=
  repeat lazymatch goal with
    | |- counted ?w ?w => apply counted_refl
    | |- counted _ (setTranscriptionData _ _) =>
        apply counted_setTranscriptionData
    | |- counted _ (?f ?w) =>
        apply (counted_same w); [reflexivity | reflexivity |]
    end.

(** The counter never decreases, and the chunk store changes only when the
    counter does. *)
Lemma step_counted (w : World) (e : Event) : counted w (step w e).
Proof. destruct e; follow_branches; counted_chain. Qed.

Lemma run_counted (evs : list Event) (w : World) : counted w (run w evs).
Proof.
  revert w. induction evs as [|e evs IH]; intros w; simpl.
  - apply counted_refl.
  - destruct (step_counted w e) as [Hle Heq].
    destruct (IH (step w e)) as [Hle' Heq'].
    split; [lia |].
    intros Hg. rewrite Heq' by lia. apply Heq. lia.
Qed.

(** The merge of a chunk re-record, as the source performs it. *)
Lemma chunk_merge_store (w : World) (t : TaskId) (index : nat)
    (data : PredictData) :
  tasks w !! t = Some (TBody (KChunk index)) →
  chunk_store (step w (EnvJson t (Some data))) =
    array_assign index (head (chunks data)) (chunk_store w).
Proof.
  intros Ht. resume Ht. open_methods. case_match; reflexivity.
Qed.

Lemma array_assign_in_range {A} (i : nat) (v : option A)
    (l : list (option A)) :
  i < length l → array_assign i v l = <[i := v]> l.
Proof.
  intros Hi. unfold array_assign.
  destruct (Nat.ltb_spec i (length l)); [reflexivity | lia].
Qed.

(** A merge that finds the chunk store as it was at the start touches
    position [i] alone. *)
Lemma quiet_merge (w0 wm : World) (i : nat) (t : TaskId) (c : ChunkData)
    (data : PredictData) :
  i < length (chunk_store w0) →
  chunk_store wm = chunk_store w0 →
  tasks wm !! t = Some (TBody (KChunk i)) →
  chunks data = [c] →
  chunk_store (step wm (EnvJson t (Some data)))
    = <[i := Some c]> (chunk_store w0).
Proof.
  intros Hi Hsame Ht Hc.
  rewrite (chunk_merge_store _ _ _ _ Ht), Hc, Hsame. simpl.
  by apply array_assign_in_range.
Qed.

(** What [getUserMedia_then] leaves behind, with the recorder table
    written out. *)
Lemma getUserMedia_then_eq (h : StopHandler) (w : World) :
  getUserMedia_then h w =
    set_recorders
      (recorders w ++
         [{| stream := streams w; state := recording; onstop := h;
             stop_queued := false |}])
      (set_mediaRecorder (Some (length (recorders w)))
         (set_audioChunks []
            (set_audioStream (Some (streams w))
               (set_streams (S (streams w)) w)))).
Proof.
  unfold getUserMedia_then, recorder_start. cbv beta iota zeta.
  set (m0 := {| stream := streams w; state := inactive; onstop := h;
                stop_queued := false |}).
  change (recorders (set_mediaRecorder _ _)) with (recorders w ++ [m0]).
  rewrite list_lookup_middle by reflexivity.
  rewrite insert_app_r_alt by lia. rewrite Nat.sub_diag. reflexivity.
Qed.

Lemma rerecord_reaches_merge (w0 : World) (i : nat) (b : Blob) :
  isRecording (store w0) = false →
  0 < blob_size b →
  tasks (run (step w0 (UiStartChunkRecording i)) (rerecord_session w0 b))
    !! S (length (tasks w0)) = Some (TBody (KChunk i)) ∧
  generation (run (step w0 (UiStartChunkRecording i)) (rerecord_session w0 b))
    = generation w0.
Proof.
  intros Hrec Hb.
  set (n := length (tasks w0)). set (r := length (recorders w0)).
  (* the button: the index is noted and the microphone is asked for *)
  set (w1 := await (TGetUserMedia (OnStopChunk i))
               (setIsRecording true (set_chunkBeingRecorded (Some i) w0))).
  assert (H1 : step w0 (UiStartChunkRecording i) = w1).
  { open_step. unfold handleStartChunkRecording. by rewrite Hrec. }
  (* the microphone is granted: recorder [r] records *)
  set (m := {| stream := streams w0; state := recording;
               onstop := OnStopChunk i; stop_queued := false |}).
  set (w2 := set_recorders (recorders w0 ++ [m])
               (set_mediaRecorder (Some r)
                  (set_audioChunks []
                     (set_audioStream (Some (streams w0))
                        (set_streams (S (streams w0))
                           (settle n TDone w1)))))).
  assert (H2 : step w1 (EnvGetUserMedia n true) = w2).
  { open_step.
    change (tasks w1) with (tasks w0 ++ [TGetUserMedia (OnStopChunk i)]).
    rewrite list_lookup_middle by reflexivity. cbv beta iota.
    apply getUserMedia_then_eq. }
  assert (Hlt : r < length (recorders w0 ++ [m])).
  { rewrite length_app. simpl. unfold r. lia. }
  (* the button again: [stop()], and [isRecording] is reset *)
  set (m1 := {| stream := streams w0; state := inactive;
                onstop := OnStopChunk i; stop_queued := true |}).
  set (w3 := setIsRecording false
               (set_recorders (<[r := m1]> (recorders w0 ++ [m])) w2)).
  assert (H3 : step w2 UiStartStop = w3).
  { open_step. unfold handleStartStopRecording, handleStopRecording.
    change (isRecording (store w2)) with true.
    change (mediaRecorder (store w2)) with (Some r). cbv beta iota.
    unfold recorder_stop.
    change (recorders w2) with (recorders w0 ++ [m]).
    by rewrite list_lookup_middle. }
  assert (Hr3 : (<[r := m1]> (recorders w0 ++ [m])) !! r = Some m1)
    by (by apply list_lookup_insert_eq).
  (* the fragment is kept *)
  set (w4 := set_audioChunks [b] w3).
  assert (H4 : step w3 (EnvDataAvailable r b) = w4).
  { open_step.
    change (recorders w3) with (<[r := m1]> (recorders w0 ++ [m])).
    rewrite Hr3. cbv beta iota. unfold ondataavailable.
    destruct (Nat.ltb_spec 0 (blob_size b)); [reflexivity | lia]. }
  (* the [stop] event: the blob is sent *)
  set (m2 := {| stream := streams w0; state := inactive;
                onstop := OnStopChunk i; stop_queued := false |}).
  set (w5 := fetch (Predict (new_Blob [b])) (KChunk i)
               (setIsLoading true
                  (set_recorders
                     (<[r := m2]> (<[r := m1]> (recorders w0 ++ [m])))
                     w4))).
  assert (H5 : step w4 (EnvStop r) = w5).
  { open_step.
    change (recorders w4) with (<[r := m1]> (recorders w0 ++ [m])).
    rewrite Hr3. cbv beta iota. unfold chunk_onstop. cbv beta iota zeta.
    change (audioChunks (store (set_recorders _ w4))) with [b].
    assert (Hsz : blob_size (new_Blob [b]) = blob_size b).
    { unfold new_Blob. simpl. by rewrite app_nil_r. }
    rewrite Hsz.
    destruct (Nat.eqb_spec (blob_size b) 0); [lia | reflexivity]. }
  (* the response arrives; its body is being read *)
  set (ts := <[n := TDone]> (tasks w0 ++ [TGetUserMedia (OnStopChunk i)])).
  assert (Hn : S n = length ts).
  { unfold ts. rewrite length_insert, length_app. simpl. unfold n. lia. }
  set (w6 := settle (S n) (TBody (KChunk i)) w5).
  assert (H6 : step w5 (EnvFetch (S n) (Some true)) = w6).
  { open_step.
    change (tasks w5) with (ts ++ [TFetch (KChunk i)]).
    by rewrite list_lookup_middle. }
  unfold rerecord_session, run. cbn [foldl]. fold n r.
  rewrite H1, H2, H3, H4, H5, H6.
  split; [| reflexivity].
  change (tasks w6) with (<[S n := TBody (KChunk i)]> (ts ++ [TFetch (KChunk i)])).
  apply list_lookup_insert_eq. rewrite length_app. simpl. lia.
Qed.

(** A re-record of a valid index carried through on its own replaces
    that position and nothing else. *)
Lemma rerecord_alone (w0 : World) (i : nat) (b : Blob) (c : ChunkData)
    (data : PredictData) :
  isRecording (store w0) = false →
  0 < blob_size b →
  i < length (chunk_store w0) →
  chunks data = [c] →
  chunk_store
    (step (run (step w0 (UiStartChunkRecording i)) (rerecord_session w0 b))
       (EnvJson (S (length (tasks w0))) (Some data)))
    = <[i := Some c]> (chunk_store w0).
Proof.
  intros Hrec Hb Hi Hc.
  destruct (rerecord_reaches_merge w0 i b Hrec Hb) as [Ht Hgen].
  apply quiet_merge; [done | | done | done].
  destruct (step_counted w0 (UiStartChunkRecording i)) as [Hle1 Heq1].
  destruct (run_counted (rerecord_session w0 b)
              (step w0 (UiStartChunkRecording i))) as [Hle2 Heq2].
  rewrite Heq2 by lia. apply Heq1. lia.
Qed.

(** ** Tasks and recorders along a session *)

Lemma counted_trans (w1 w2 w3 : World) :
  counted w1 w2 → counted w2 w3 → counted w1 w3.
Proof.
  intros [Hle1 Heq1] [Hle2 Heq2]. split; [lia |].
  intros Hg. rewrite Heq2 by lia. apply Heq1. lia.
Qed.

Lemma counted_step_run (w : World) (e : Event) (evs : list Event) :
  counted w (run (step w e) evs).
Proof. eapply counted_trans; [apply step_counted | apply run_counted]. Qed.

Lemma evolves_trans (x y z : Task) : evolves x y → evolves y z → evolves x z.
Proof.
  intros Hxy Hyz. destruct Hxy; [done | | ].
  - inversion Hyz; constructor.
  - inversion Hyz; constructor.
Qed.

Lemma task_kept (w' : World) (l : list Task) (t : TaskId) (x : Task) :
  tasks w' = l → l !! t = Some x →
  ∃ y, tasks w' !! t = Some y ∧ evolves x y.
Proof. intros -> H. exists x. split; [done | constructor]. Qed.

Lemma task_kept_app (w' : World) (l : list Task) (z : Task) (t : TaskId)
    (x : Task) :
  tasks w' = l ++ [z] → l !! t = Some x →
  ∃ y, tasks w' !! t = Some y ∧ evolves x y.
Proof.
  intros -> H. exists x. split; [by apply lookup_app_l_Some | constructor].
Qed.

Lemma task_kept_insert (w' : World) (l : list Task) (t0 : TaskId)
    (x0 y0 : Task) (t : TaskId) (x : Task) :
  tasks w' = <[t0 := y0]> l → l !! t0 = Some x0 → evolves x0 y0 →
  l !! t = Some x →
  ∃ y, tasks w' !! t = Some y ∧ evolves x y.
Proof.
  intros -> H0 Hev H. destruct (decide (t0 = t)) as [-> | Hne].
  - exists y0. rewrite H in H0. injection H0 as ->.
    split; [| done]. apply list_lookup_insert_eq. by eapply lookup_lt_Some.
  - exists x. split; [by rewrite list_lookup_insert_ne | constructor].
Qed.

(** An entry of the task table is only ever changed by the settling of
    its own promise, and then only forwards; what the suspended method
    captured stays with it. *)
Lemma step_task_evolves (w : World) (e : Event) (t : TaskId) (x : Task) :
  tasks w !! t = Some x →
  ∃ y, tasks (step w e) !! t = Some y ∧ evolves x y.
Proof.
  intros H. destruct e; follow_branches;
    first
      [ by apply (task_kept _ (tasks w))
      | by eapply (task_kept_app _ (tasks w)); [reflexivity |]
      | eapply (task_kept_insert _ (tasks w));
          [reflexivity | eassumption | by constructor | done] ].
Qed.

Lemma run_task_evolves (evs : list Event) (w : World) (t : TaskId)
    (x : Task) :
  tasks w !! t = Some x →
  ∃ y, tasks (run w evs) !! t = Some y ∧ evolves x y.
Proof.
  revert w x. induction evs as [|e evs IH]; intros w x H; simpl.
  - exists x. split; [done | constructor].
  - destruct (step_task_evolves w e t x H) as (y & Hy & Hxy).
    destruct (IH _ _ Hy) as (z & Hz & Hyz).
    exists z. split; [done | by eapply evolves_trans].
Qed.

Lemma recorder_kept (w' : World) (l : list MediaRecorder) (r : RecorderId)
    (m : MediaRecorder) :
  recorders w' = l → l !! r = Some m →
  ∃ m', recorders w' !! r = Some m' ∧ onstop m' = onstop m.
Proof. intros -> H. by exists m. Qed.

Lemma recorder_kept_app (w' : World) (l : list MediaRecorder)
    (z : MediaRecorder) (r : RecorderId) (m : MediaRecorder) :
  recorders w' = l ++ [z] → l !! r = Some m →
  ∃ m', recorders w' !! r = Some m' ∧ onstop m' = onstop m.
Proof. intros -> H. exists m. split; [by apply lookup_app_l_Some | done]. Qed.

Lemma recorder_kept_insert (w' : World) (l : list MediaRecorder)
    (r0 : RecorderId) (m0 m0' : MediaRecorder) (r : RecorderId)
    (m : MediaRecorder) :
  recorders w' = <[r0 := m0']> l → l !! r0 = Some m0 →
  onstop m0' = onstop m0 → l !! r = Some m →
  ∃ m', recorders w' !! r = Some m' ∧ onstop m' = onstop m.
Proof.
  intros -> H0 Hon H. destruct (decide (r0 = r)) as [-> | Hne].
  - exists m0'. rewrite H in H0. injection H0 as ->.
    split; [| done]. apply list_lookup_insert_eq. by eapply lookup_lt_Some.
  - exists m. split; [by rewrite list_lookup_insert_ne | done].
Qed.

(** A recorder keeps the [onstop] closure it was built with. *)
Lemma step_recorder_onstop (w : World) (e : Event) (r : RecorderId)
    (m : MediaRecorder) :
  recorders w !! r = Some m →
  ∃ m', recorders (step w e) !! r = Some m' ∧ onstop m' = onstop m.
Proof.
  intros H.
  destruct e;
    try (open_step;
         unfold handleStartStopRecording, handleStopRecording,
           handleStartRecording, handleFileUpload, handleStartChunkRecording,
           handleSynthesize, getUserMedia_catch, ondataavailable,
           recording_onstop, chunk_onstop, json_then, fetch_catch,
           fetch_finally, release_audioStream, recorder_stop;
         cbv beta iota zeta; repeat case_match;
         first
           [ by apply (recorder_kept _ (recorders w))
           | eapply (recorder_kept_insert _ (recorders w));
               [reflexivity | eassumption
               | first [reflexivity | symmetry; eassumption] | done] ]).
  (* the microphone request settles *)
  open_step. repeat case_match;
    try (by apply (recorder_kept _ (recorders w))).
  rewrite getUserMedia_then_eq.
  by eapply (recorder_kept_app _ (recorders w)); [reflexivity |].
Qed.

Lemma run_recorder_onstop (evs : list Event) (w : World) (r : RecorderId)
    (m : MediaRecorder) :
  recorders w !! r = Some m →
  ∃ m', recorders (run w evs) !! r = Some m' ∧ onstop m' = onstop m.
Proof.
  revert w m. induction evs as [|e evs IH]; intros w m H; simpl.
  - by exists m.
  - destruct (step_recorder_onstop w e r m H) as (m1 & H1 & Hon1).
    destruct (IH _ _ H1) as (m2 & H2 & Hon2).
    exists m2. split; [done | congruence].
Qed.

Lemma falsy_spec (s : string) : falsy s = true ↔ s = "".
Proof. destruct s; simpl; split; congruence. Qed.

Lemma falsy_nonempty (s : string) : s ≠ "" → falsy s = false.
Proof. destruct s; [congruence | reflexivity]. Qed.

Lemma fetch_ok_step (w : World) (t : TaskId) (k : FetchCont) :
  tasks w !! t = Some (TFetch k) →
  step w (EnvFetch t (Some true)) = settle t (TBody k) w.
Proof. intros Ht. by resume Ht. Qed.

Lemma settle_lookup (n : TaskId) (t : Task) (w : World) :
  n < length (tasks w) → tasks (settle n t w) !! n = Some t.
Proof.
  intros Hn. change (tasks (settle n t w)) with (<[n := t]> (tasks w)).
  by apply list_lookup_insert_eq.
Qed.

Lemma chunk_onstop_sends (index : nat) (w : World) :
  blob_size (new_Blob (audioChunks (store w))) ≠ 0 →
  chunk_onstop index w
    = fetch (Predict (new_Blob (audioChunks (store w)))) (KChunk index)
        (setIsLoading true w).
Proof.
  intros Hsz. unfold chunk_onstop. cbv beta iota zeta.
  by destruct (Nat.eqb_spec (blob_size (new_Blob (audioChunks (store w)))) 0).
Qed.

(** [handleSynthesize] with both inputs present, up to the parked
    request. *)
Lemma synthesize_parked (w : World) :
  rawText (store w) ≠ "" →
  selectedAccent (store w) ≠ "" →
  step w UiSynthesize
    = fetch (Synthesize (rawText (store w)) (selectedAccent (store w))) KSynth
        (setSynthesizedAudioSrc None
           (setErrorMessage None (setIsLoading true w))).
Proof.
  intros Htext Hacc. open_step. unfold handleSynthesize.
  cbv beta iota zeta.
  by rewrite (falsy_nonempty _ Htext), (falsy_nonempty _ Hacc).
Qed.

Lemma array_assign_spec {A} (i : nat) (v : option A) (l : list (option A)) :
  array_assign i v l !! i = Some v ∧
  length (array_assign i v l) = max (length l) (S i) ∧
  ∀ j, j ≠ i → j < length l → array_assign i v l !! j = l !! j.
Proof.
  unfold array_assign. destruct (Nat.ltb_spec i (length l)) as [Hlt | Hge].
  - split; [by apply list_lookup_insert_eq |]. split.
    + rewrite length_insert. lia.
    + intros j Hj _. by apply list_lookup_insert_ne.
  - split; [| split].
    + rewrite lookup_app_r by lia.
      apply list_lookup_middle. by rewrite length_replicate.
    + rewrite !length_app, length_replicate. simpl. lia.
    + intros j _ Hj. by rewrite lookup_app_l.
Qed.

(** One more suspended method is one more operation under way. *)
Lemma outstanding_parked (w w' : World) (x : Task) :
  tasks w' = tasks w ++ [x] →
  task_pending x = true →
  recorders w' = recorders w →
  outstanding w' = S (outstanding w).
Proof.
  intros Ht Hx Hr. unfold outstanding. rewrite Ht, Hr, filter_app, length_app.
  assert (Hone : filter (λ t, task_pending t = true) [x] = [x])
    by (by rewrite filter_cons_True).
  rewrite Hone. simpl. lia.
Qed.

(** ** Chunk re-record: the merge *)

(** C1 (as stated, refuted): a second upload replaces the chunk store
    while chunk 1 is being re-recorded, so the write counter at merge time
    differs from its value at the start of the re-record; the merge is
    applied all the same, it overwrites position 1 of the new transcript,
    and no error is recorded. *)
Lemma C1_stale_merge_is_applied :
  feasible reviewing3 (UiStartChunkRecording 1 :: overtaken_events) = true ∧
  generation (run (step reviewing3 (UiStartChunkRecording 1)) overtaken_events)
    ≠ generation (step reviewing3 (UiStartChunkRecording 1)) ∧
  tasks (run (step reviewing3 (UiStartChunkRecording 1)) overtaken_events) !! 3
    = Some (TBody (KChunk 1)) ∧
  chunk_store (run (step reviewing3 (UiStartChunkRecording 1)) overtaken_events)
    = [Some chunk_good; Some chunk_morning] ∧
  chunk_store
    (step (run (step reviewing3 (UiStartChunkRecording 1)) overtaken_events)
       (EnvJson 3 (Some rerecord1)))
    = [Some chunk_good; Some chunk_there_again] ∧
  errorMessage
    (store
       (step (run (step reviewing3 (UiStartChunkRecording 1)) overtaken_events)
          (EnvJson 3 (Some rerecord1))))
    = None.
Proof. vm_compute. repeat split; congruence. Qed.

(** C1 (amended): the source keeps no generation counter and has no
    stale-index error.  Whatever happened between the start of a re-record
    of chunk [index] and the arrival of its parsed response, the merge is
    applied to the sequence the store holds at that moment: position
    [index] receives the first chunk of the response, and the error
    message is left as it was. *)
Theorem C1_merge_is_unconditional (w0 : World) (index : nat)
    (evs : list Event) (t : TaskId) (data : PredictData) :
  tasks (run (step w0 (UiStartChunkRecording index)) evs) !! t
    = Some (TBody (KChunk index)) →
  chunk_store
    (step (run (step w0 (UiStartChunkRecording index)) evs)
       (EnvJson t (Some data)))
    = array_assign index (head (chunks data))
        (chunk_store (run (step w0 (UiStartChunkRecording index)) evs)) ∧
  errorMessage
    (store
       (step (run (step w0 (UiStartChunkRecording index)) evs)
          (EnvJson t (Some data))))
    = errorMessage (store (run (step w0 (UiStartChunkRecording index)) evs)).
Proof.
  intros Ht.
  set (wm := run (step w0 (UiStartChunkRecording index)) evs) in *.
  split; [by apply chunk_merge_store |].
  resume Ht. open_methods. case_match; reflexivity.
Qed.

Lemma C1_merge_is_unconditional_witness :
  tasks (run (step reviewing3 (UiStartChunkRecording 1)) overtaken_events) !! 3
    = Some (TBody (KChunk 1)) ∧
  chunk_store
    (step (run (step reviewing3 (UiStartChunkRecording 1)) overtaken_events)
       (EnvJson 3 (Some rerecord1)))
    = array_assign 1 (head (chunks rerecord1))
        (chunk_store
           (run (step reviewing3 (UiStartChunkRecording 1)) overtaken_events)).
Proof.
  split; [vm_compute; reflexivity |].
  destruct (C1_merge_is_unconditional
              reviewing3 1 overtaken_events 3 rerecord1) as (Hmerge & _).
  - vm_compute; reflexivity.
  - exact Hmerge.
Defined.

(** C2: a re-record of chunk [i], started by "Re-record" on a valid
    index [i] while nothing is being recorded, and completed with a
    one-chunk response before anything else wrote the chunk store,
    replaces exactly position [i] by that chunk: every other position and
    the length are as they were at the start.  The re-record is followed
    through any session by what it creates: the click parks the
    microphone request (the next task), the grant builds the next
    recorder, that recorder's [stop] event sends the recording and parks
    the next task again, whose response and body are then delivered;
    anything may happen in between ([evs1] to [evs4]). *)
Theorem C2_rerecord_replaces_only_index (w0 : World) (i : nat)
    (evs1 evs2 evs3 evs4 : list Event) (wa wb wc wd : World)
    (c : ChunkData) (data : PredictData) :
  isRecording (store w0) = false →
  i < length (chunk_store w0) →
  wa = run (step w0 (UiStartChunkRecording i)) evs1 →
  enabled wa (EnvGetUserMedia (length (tasks w0)) true) = true →
  wb = run (step wa (EnvGetUserMedia (length (tasks w0)) true)) evs2 →
  enabled wb (EnvStop (length (recorders wa))) = true →
  0 < blob_size (new_Blob (audioChunks (store wb))) →
  wc = run (step wb (EnvStop (length (recorders wa)))) evs3 →
  enabled wc (EnvFetch (length (tasks wb)) (Some true)) = true →
  wd = run (step wc (EnvFetch (length (tasks wb)) (Some true))) evs4 →
  enabled wd (EnvJson (length (tasks wb)) (Some data)) = true →
  chunks data = [c] →
  generation wd = generation w0 →
  chunk_store (step wd (EnvJson (length (tasks wb)) (Some data)))
    = <[i := Some c]> (chunk_store w0) ∧
  chunk_store (step wd (EnvJson (length (tasks wb)) (Some data))) !! i
    = Some (Some c) ∧
  ∀ j, j ≠ i →
    chunk_store (step wd (EnvJson (length (tasks wb)) (Some data))) !! j
      = chunk_store w0 !! j.
Proof.
  intros Hrec Hi Hwa Hgrant Hwb Hstop Hblob Hwc Hfetch Hwd Hjson Hc Hgen.
  set (n := length (tasks w0)) in *.
  set (r := length (recorders wa)) in *.
  set (t := length (tasks wb)) in *.
  (* the click parks the microphone request as task [n], with the index *)
  set (w1 := step w0 (UiStartChunkRecording i)) in *.
  assert (H1 : tasks w1 !! n = Some (TGetUserMedia (OnStopChunk i))).
  { unfold w1. open_step. unfold handleStartChunkRecording. rewrite Hrec.
    change (tasks (await _ _))
      with (tasks w0 ++ [TGetUserMedia (OnStopChunk i)]).
    by apply list_lookup_middle. }
  (* it is still that request when the microphone is granted *)
  destruct (run_task_evolves evs1 w1 n _ H1) as (y & Hy & Hev).
  rewrite <- Hwa in Hy.
  assert (Hn : tasks wa !! n = Some (TGetUserMedia (OnStopChunk i))).
  { simpl in Hgrant. rewrite Hy in Hgrant.
    inversion Hev; subst; try discriminate Hgrant. done. }
  clear y Hy Hev.
  (* the grant makes recorder [r], whose [onstop] holds the index *)
  assert (Hr : ∃ m, recorders (step wa (EnvGetUserMedia n true)) !! r = Some m
                    ∧ onstop m = OnStopChunk i).
  { resume Hn. rewrite getUserMedia_then_eq. eexists. split.
    - change (recorders (set_recorders ?l _)) with l.
      by apply list_lookup_middle.
    - reflexivity. }
  destruct Hr as (m0 & Hm0 & Hon0).
  destruct (run_recorder_onstop evs2 _ r m0 Hm0) as (m & Hm & Hon).
  rewrite <- Hwb, Hon0 in *. clear m0 Hm0 Hon0.
  (* its [stop] event sends the recording and parks task [t] *)
  assert (Hq : stop_queued m = true).
  { simpl in Hstop. by rewrite Hm in Hstop. }
  assert (Ht : tasks (step wb (EnvStop r)) !! t = Some (TFetch (KChunk i))).
  { unfold step. rewrite Hm, Hq. cbv beta iota.
    change (onstop {| stream := _; state := _; onstop := ?h;
                      stop_queued := _ |}) with h.
    rewrite Hon. unfold run_onstop.
    rewrite chunk_onstop_sends by (change (audioChunks (store _))
                                     with (audioChunks (store wb)); lia).
    change (tasks (fetch _ _ _)) with (tasks wb ++ [TFetch (KChunk i)]).
    by apply list_lookup_middle. }
  (* it is still that request when the response arrives *)
  destruct (run_task_evolves evs3 _ t _ Ht) as (y & Hy & Hev).
  rewrite <- Hwc in Hy.
  assert (Ht3 : tasks wc !! t = Some (TFetch (KChunk i))).
  { simpl in Hfetch. rewrite Hy in Hfetch.
    inversion Hev; subst; try discriminate Hfetch. done. }
  clear y Hy Hev.
  assert (Ht4 : tasks (step wc (EnvFetch t (Some true))) !! t
                = Some (TBody (KChunk i))).
  { rewrite (fetch_ok_step _ _ _ Ht3). apply settle_lookup.
    by eapply lookup_lt_Some. }
  (* and still that body when it is parsed *)
  destruct (run_task_evolves evs4 _ t _ Ht4) as (y & Hy & Hev).
  rewrite <- Hwd in Hy.
  assert (Ht5 : tasks wd !! t = Some (TBody (KChunk i))).
  { simpl in Hjson. rewrite Hy in Hjson.
    inversion Hev; subst; try discriminate Hjson. done. }
  clear y Hy Hev.
  (* nothing wrote the chunk store in between *)
  assert (Hcount : counted w0 wd).
  { rewrite Hwd, Hwc, Hwb, Hwa.
    repeat (eapply counted_trans; [| apply counted_step_run]).
    apply counted_refl. }
  assert (Hsame : chunk_store wd = chunk_store w0).
  { destruct Hcount as [_ Heq]. by apply Heq. }
  assert (Hmerge :
    chunk_store (step wd (EnvJson t (Some data)))
      = <[i := Some c]> (chunk_store w0))
    by (by apply quiet_merge).
  rewrite Hmerge. split; [reflexivity |]. split.
  - by apply list_lookup_insert_eq.
  - intros j Hj. by apply list_lookup_insert_ne.
Qed.

Lemma C2_rerecord_replaces_only_index_witness :
  feasible reviewing3
    [UiStartChunkRecording 1; UiSelectAccent "us"; UiPlayChunk 0;
     EnvGetUserMedia 1 true; UiStartStop; EnvDataAvailable 0 fragment;
     EnvStop 0; EnvFetch 2 (Some true); EnvJson 2 (Some rerecord1)] = true ∧
  chunk_store reviewing3 = [Some chunk_hi; Some chunk_there; Some chunk_x] ∧
  generation mixed_wd = generation reviewing3 ∧
  chunk_store
    (step mixed_wd (EnvJson (length (tasks mixed_wb)) (Some rerecord1)))
    = <[1 := Some chunk_there_again]> (chunk_store reviewing3).
Proof.
  split; [vm_compute; reflexivity |].
  split; [vm_compute; reflexivity |]. split; [vm_compute; reflexivity |].
  destruct (C2_rerecord_replaces_only_index
              reviewing3 1 [UiSelectAccent "us"; UiPlayChunk 0]
              [UiStartStop; EnvDataAvailable 0 fragment] [] []
              mixed_wa mixed_wb mixed_wc mixed_wd
              chunk_there_again rerecord1)
    as (Hstore & _).
  - vm_compute; reflexivity.
  - vm_compute; lia.
  - unfold mixed_wa. exact eq_refl.
  - vm_compute; reflexivity.
  - unfold mixed_wb. exact eq_refl.
  - vm_compute; reflexivity.
  - vm_compute; lia.
  - unfold mixed_wc. exact eq_refl.
  - vm_compute; reflexivity.
  - unfold mixed_wd. exact eq_refl.
  - vm_compute; reflexivity.
  - vm_compute; reflexivity.
  - vm_compute; reflexivity.
  - exact Hstore.
Defined.

(** ** Full uploads *)




(** ** Mutual exclusion *)

(** C4 (as stated, refuted): two files chosen one after the other leave
    two uploads outstanding, and a synthesis requested again after an
    interleaved upload has failed leaves two syntheses outstanding; in
    both sessions the second request is sent and the refusal the claim
    promises is not recorded. *)
Lemma C4_two_operations_outstanding :
  feasible init [UiFileUpload file_a; UiFileUpload file_b] = true ∧
  outstanding (run init [UiFileUpload file_a; UiFileUpload file_b]) = 2 ∧
  requests (run init [UiFileUpload file_a; UiFileUpload file_b])
    = [Predict file_a; Predict file_b] ∧
  errorMessage (store (run init [UiFileUpload file_a; UiFileUpload file_b]))
    = None ∧
  feasible reviewing3
    [UiSynthesize; UiFileUpload file_b; EnvFetch 2 None; UiSynthesize] = true ∧
  tasks
    (run reviewing3
       [UiSynthesize; UiFileUpload file_b; EnvFetch 2 None; UiSynthesize])
    = [TDone; TFetch KSynth; TDone; TFetch KSynth] ∧
  errorMessage
    (store
       (run reviewing3
          [UiSynthesize; UiFileUpload file_b; EnvFetch 2 None; UiSynthesize]))
    = None.
Proof. vm_compute. repeat split; congruence. Qed.

(** C4 (amended): the store does not serialise its operations and has no
    in-progress error.  Whatever else is under way, a file upload sends
    its request and is one more operation under way, and so does a
    synthesis whose text and accent are present; neither records an
    error.  Recording alone is guarded, by [isRecording].  While it is not
    set, the record button and "Re-record" each park a microphone
    request, one more operation under way.  While it is set, "Re-record"
    returns at once and changes nothing (nothing is queued, no error is
    recorded), and the record button starts nothing: it calls [stop()]
    on the recorder the store holds and resets [isRecording], or does
    nothing at all when the store holds no recorder; no request is made
    or sent, no recorder is added and the error message is as it was. *)
Theorem C4_only_recording_is_guarded (w : World) (index : nat)
    (file : Blob) :
  (requests (step w (UiFileUpload file)) = requests w ++ [Predict file] ∧
   outstanding (step w (UiFileUpload file)) = S (outstanding w) ∧
   errorMessage (store (step w (UiFileUpload file))) = None) ∧
  (rawText (store w) ≠ "" → selectedAccent (store w) ≠ "" →
   requests (step w UiSynthesize)
     = requests w
       ++ [Synthesize (rawText (store w)) (selectedAccent (store w))] ∧
   outstanding (step w UiSynthesize) = S (outstanding w) ∧
   errorMessage (store (step w UiSynthesize)) = None) ∧
  (isRecording (store w) = false →
   tasks (step w UiStartStop) = tasks w ++ [TGetUserMedia OnStopFull] ∧
   outstanding (step w UiStartStop) = S (outstanding w) ∧
   tasks (step w (UiStartChunkRecording index))
     = tasks w ++ [TGetUserMedia (OnStopChunk index)] ∧
   outstanding (step w (UiStartChunkRecording index)) = S (outstanding w) ∧
   errorMessage (store (step w (UiStartChunkRecording index)))
     = errorMessage (store w)) ∧
  (isRecording (store w) = true →
   step w (UiStartChunkRecording index) = w ∧
   step w UiStartStop
     = match mediaRecorder (store w) with
       | Some r => setIsRecording false (recorder_stop r w)
       | None => w
       end ∧
   tasks (step w UiStartStop) = tasks w ∧
   requests (step w UiStartStop) = requests w ∧
   length (recorders (step w UiStartStop)) = length (recorders w) ∧
   errorMessage (store (step w UiStartStop)) = errorMessage (store w)).
Proof.
  split; [| split; [| split]].
  - split; [reflexivity |]. split; [| reflexivity].
    by apply (outstanding_parked w _ (TFetch KFile)).
  - intros Htext Hacc. rewrite (synthesize_parked w Htext Hacc).
    split; [reflexivity |]. split; [| reflexivity].
    by apply (outstanding_parked w _ (TFetch KSynth)).
  - intros Hrec. open_step.
    unfold handleStartStopRecording, handleStartChunkRecording.
    rewrite Hrec.
    split; [reflexivity |]. split.
    { by apply (outstanding_parked w _ (TGetUserMedia OnStopFull)). }
    split; [reflexivity |]. split; [| reflexivity].
    by apply (outstanding_parked w _ (TGetUserMedia (OnStopChunk index))).
  - intros Hrec. open_step.
    unfold handleStartChunkRecording, handleStartStopRecording,
      handleStopRecording.
    rewrite Hrec. split; [reflexivity |]. split; [reflexivity |].
    unfold recorder_stop.
    repeat case_match; repeat split; try reflexivity;
      change (recorders (setIsRecording _ (set_recorders ?l _))) with l;
      by rewrite length_insert.
Qed.

Lemma C4_only_recording_is_guarded_witness :
  isRecording (store (step reviewing3 (UiStartChunkRecording 1))) = true ∧
  step (step reviewing3 (UiStartChunkRecording 1)) (UiStartChunkRecording 2)
    = step reviewing3 (UiStartChunkRecording 1) ∧
  rawText (store (step reviewing3 (UiFileUpload file_b))) ≠ "" ∧
  outstanding (step reviewing3 (UiFileUpload file_b)) = 1 ∧
  outstanding (step (step reviewing3 (UiFileUpload file_b)) UiSynthesize)
    = S (outstanding (step reviewing3 (UiFileUpload file_b))) ∧
  isRecording (store reviewing3) = false ∧
  tasks (step reviewing3 UiStartStop)
    = tasks reviewing3 ++ [TGetUserMedia OnStopFull].
Proof.
  split; [vm_compute; reflexivity |].
  destruct (C4_only_recording_is_guarded
              (step reviewing3 (UiStartChunkRecording 1)) 2 file_b)
    as (_ & _ & _ & Hguard).
  destruct Hguard as (Hsame & _); [vm_compute; reflexivity |].
  split; [exact Hsame |].
  split; [vm_compute; discriminate |].
  split; [vm_compute; reflexivity |].
  destruct (C4_only_recording_is_guarded
              (step reviewing3 (UiFileUpload file_b)) 0 file_a)
    as (_ & Hsynth & _).
  destruct Hsynth as (_ & Hout & _);
    [vm_compute; discriminate | vm_compute; discriminate |].
  split; [exact Hout |].
  split; [vm_compute; reflexivity |].
  destruct (C4_only_recording_is_guarded reviewing3 0 file_a)
    as (_ & _ & Hstart & _).
  destruct Hstart as (Htasks & _); [vm_compute; reflexivity |].
  exact Htasks.
Defined.

(** ** Releasing the microphone *)

(** C5 (fails on the source): a capture stopped before anything was
    recorded ends in the early [return] of [onstop], ahead of the
    [try]/[finally] that stops the tracks: the one stream handed out is
    never stopped, is still held by the store, and nothing is left
    running that could stop it.  The sibling paths do release it exactly
    once: after a parsed answer and after a failed request. *)
Theorem C5_empty_capture_leaks_stream :
  feasible init empty_capture = true ∧
  streams (run init empty_capture) = 1 ∧
  stopped (run init empty_capture) = [] ∧
  audioStream (store (run init empty_capture)) = Some 0 ∧
  outstanding (run init empty_capture) = 0 ∧
  stopped (run init good_capture) = [0] ∧
  stopped
    (run init
       [UiStartStop; EnvGetUserMedia 0 true; UiStartStop;
        EnvDataAvailable 0 fragment; EnvStop 0; EnvFetch 1 None]) = [0].
Proof. vm_compute. repeat split; congruence. Qed.

(** ** Empty recordings *)




(** ** Synthesis *)

(** C7 (as stated, refuted): the one chunk on the page has been
    re-recorded and has no text, so the joined text of the transcript is
    empty; the page is in review and offers the synthesize button; the
    synthesis is requested all the same, with the text of the upload, and
    no error is recorded. *)
Lemma C7_empty_joined_text_still_sends :
  feasible init silenced_events = true ∧
  phase (run init silenced_events) = Reviewing ∧
  joined_text (run init silenced_events) = "" ∧
  rawText (store (run init silenced_events)) = "hi" ∧
  enabled (run init silenced_events) UiSynthesize = true ∧
  requests (step (run init silenced_events) UiSynthesize)
    = requests (run init silenced_events) ++ [Synthesize "hi" "british"] ∧
  errorMessage (store (step (run init silenced_events) UiSynthesize)) = None.
Proof. vm_compute. repeat split; congruence. Qed.

(** C7 (amended): a synthesis requested while the stored text [rawText]
    (the field [handleSynthesize] reads; the chunks now in the store are
    not looked at) is empty, or while no accent is selected, only records
    the error message "Text or accent is missing.": no request is sent,
    nothing is left pending and the phase is the one it was. *)
Theorem C7_synthesize_missing_input (w : World) :
  rawText (store w) = "" ∨ selectedAccent (store w) = "" →
  step w UiSynthesize = setErrorMessage (Some "Text or accent is missing.") w ∧
  errorMessage (store (step w UiSynthesize))
    = Some "Text or accent is missing." ∧
  requests (step w UiSynthesize) = requests w ∧
  tasks (step w UiSynthesize) = tasks w ∧
  phase (step w UiSynthesize) = phase w.
Proof.
  intros Hmiss. open_step. unfold handleSynthesize.
  assert (Hf : falsy (rawText (store w)) || falsy (selectedAccent (store w))
               = true).
  { apply orb_true_iff. destruct Hmiss as [H | H]; [left | right];
      by apply falsy_spec. }
  rewrite Hf. cbv beta iota zeta. repeat split.
Qed.

Lemma C7_synthesize_missing_input_witness :
  rawText (store reviewing_silence) = "" ∧
  phase reviewing_silence = Reviewing ∧
  errorMessage (store (step reviewing_silence UiSynthesize))
    = Some "Text or accent is missing." ∧
  requests (step reviewing_silence UiSynthesize) = requests reviewing_silence ∧
  phase (step reviewing_silence UiSynthesize) = phase reviewing_silence.
Proof.
  split; [vm_compute; reflexivity |]. split; [vm_compute; reflexivity |].
  destruct (C7_synthesize_missing_input reviewing_silence)
    as (_ & Herr & Hreq & _ & Hph).
  - left. vm_compute; reflexivity.
  - split; [exact Herr |]. split; [exact Hreq | exact Hph].
Defined.

(** ** The index being re-recorded *)

(** C8 (fails on the source): a re-record of chunk 1 stopped before
    anything was recorded ends in the early [return] of [onstop], ahead of
    the [finally] that clears [chunkBeingRecorded]: the index stays set
    although recording is over, nothing is pending and the page is back in
    review.  The sibling paths do clear it: after a parsed answer and
    after a failed request.  (A refused microphone leaves the index set as
    well.) *)
Theorem C8_empty_rerecord_keeps_index :
  feasible init empty_rerecord = true ∧
  chunkBeingRecorded (store (run init empty_rerecord)) = Some 1 ∧
  isRecording (store (run init empty_rerecord)) = false ∧
  outstanding (run init empty_rerecord) = 0 ∧
  phase (run init empty_rerecord) = Reviewing ∧
  chunkBeingRecorded
    (store
       (run (step reviewing3 (UiStartChunkRecording 1))
          (rerecord_events ++ [EnvJson 2 (Some rerecord1)]))) = None ∧
  chunkBeingRecorded
    (store
       (run (step reviewing3 (UiStartChunkRecording 1))
          (rerecord_events ++ [EnvJson 2 None]))) = None ∧
  chunkBeingRecorded
    (store
       (run reviewing3 [UiStartChunkRecording 1; EnvGetUserMedia 1 false]))
    = Some 1.
Proof. vm_compute. repeat split; congruence. Qed.

(** ** The text that is synthesised *)

(** Only a parsed full upload writes [rawText]. *)
Lemma step_rawText (w : World) (e : Event) :
  completes_full_upload w e = false →
  rawText (store (step w e)) = rawText (store w).
Proof.
  intros Hno. destruct e; unfold completes_full_upload in Hno;
    follow_branches; try discriminate Hno; try reflexivity.
  all: destruct k; discriminate Hno || reflexivity.
Qed.

Lemma run_rawText (evs : list Event) (w : World) :
  no_full_upload w evs = true →
  rawText (store (run w evs)) = rawText (store w).
Proof.
  revert w. induction evs as [|e evs IH]; intros w Hno; simpl in *.
  - reflexivity.
  - apply andb_true_iff in Hno as [He Hrest].
    apply negb_true_iff in He.
    rewrite (IH _ Hrest). by apply step_rawText.
Qed.

Lemma full_upload_rawText (w : World) (t : TaskId) (k : FetchCont)
    (up : PredictData) :
  tasks w !! t = Some (TBody k) →
  is_full k = true →
  rawText (store (step w (EnvJson t (Some up))))
    = String.concat " " (text <$> chunks up).
Proof.
  intros Ht Hk. resume Ht.
  destruct k; try discriminate Hk; open_methods; repeat case_match;
    reflexivity.
Qed.

(** C9: once a full upload has been answered with the chunks of [up],
    whatever follows short of another answered full upload, chunk
    re-records included, leaves the stored text alone: a synthesis
    requested afterwards sends the space-joined texts of [up], not the
    texts now in the chunk store. *)
Theorem C9_synthesis_sends_uploaded_text (w : World) (t : TaskId)
    (k : FetchCont) (up : PredictData) (evs : list Event) :
  tasks w !! t = Some (TBody k) →
  is_full k = true →
  no_full_upload (step w (EnvJson t (Some up))) evs = true →
  String.concat " " (text <$> chunks up) ≠ "" →
  selectedAccent (store (run (step w (EnvJson t (Some up))) evs)) ≠ "" →
  requests (step (run (step w (EnvJson t (Some up))) evs) UiSynthesize)
    = requests (run (step w (EnvJson t (Some up))) evs)
      ++ [Synthesize
            (String.concat " " (text <$> chunks up))
            (selectedAccent
               (store (run (step w (EnvJson t (Some up))) evs)))].
Proof.
  intros Ht Hk Hno Htext Hacc.
  set (w1 := step w (EnvJson t (Some up))) in *.
  assert (Hraw : rawText (store (run w1 evs))
                 = String.concat " " (text <$> chunks up)).
  { rewrite (run_rawText _ _ Hno). by eapply full_upload_rawText. }
  open_step. unfold handleSynthesize. cbv beta iota zeta. rewrite Hraw.
  rewrite (falsy_nonempty _ Htext), (falsy_nonempty _ Hacc). reflexivity.
Qed.

Lemma C9_synthesis_sends_uploaded_text_witness :
  chunk_store
    (run reviewing3
       (UiStartChunkRecording 1 :: rerecord_events
          ++ [EnvJson 2 (Some rerecord1)]))
    = [Some chunk_hi; Some chunk_there_again; Some chunk_x] ∧
  requests
    (step
       (run (step (run init [UiFileUpload file_a; EnvFetch 0 (Some true)])
               (EnvJson 0 (Some upload3)))
          (UiStartChunkRecording 1 :: rerecord_events
             ++ [EnvJson 2 (Some rerecord1)]))
       UiSynthesize)
    = [Predict file_a; Predict fragment; Synthesize "hi there x" "british"].
Proof.
  split; [vm_compute; reflexivity |].
  rewrite (C9_synthesis_sends_uploaded_text
             (run init [UiFileUpload file_a; EnvFetch 0 (Some true)])
             0 KFile upload3
             (UiStartChunkRecording 1 :: rerecord_events
                ++ [EnvJson 2 (Some rerecord1)])).
  - vm_compute; reflexivity.
  - vm_compute; reflexivity.
  - vm_compute; reflexivity.
  - vm_compute; reflexivity.
  - vm_compute. discriminate.
  - vm_compute. discriminate.
Defined.

(** ** Responses without a chunk *)

(** C10 (as stated, refuted): the transcript has shrunk to one chunk
    while chunk 2 was being re-recorded; the empty response is merged at
    index 2 and the sequence grows from one element to three. *)
Lemma C10_empty_response_can_grow :
  feasible reviewing3 (UiStartChunkRecording 2 :: shortened_events) = true ∧
  tasks (run (step reviewing3 (UiStartChunkRecording 2)) shortened_events) !! 3
    = Some (TBody (KChunk 2)) ∧
  chunks nothing_heard = [] ∧
  length
    (chunk_store
       (run (step reviewing3 (UiStartChunkRecording 2)) shortened_events))
    = 1 ∧
  length
    (chunk_store
       (step (run (step reviewing3 (UiStartChunkRecording 2)) shortened_events)
          (EnvJson 3 (Some nothing_heard))))
    = 3.
Proof. vm_compute. repeat split; congruence. Qed.

(** C10 (amended): the merge of a re-record writes element 0 of the
    response's chunks without looking at their number.  When the response
    has no chunk, the position of the index holds [undefined] afterwards
    and every other stored position is as it was; the length is preserved
    when the index is within the stored sequence at that moment, and
    otherwise the sequence grows to reach the index. *)
Theorem C10_empty_response_writes_undefined (w : World) (t : TaskId)
    (index : nat) (data : PredictData) :
  tasks w !! t = Some (TBody (KChunk index)) →
  chunks data = [] →
  chunk_store (step w (EnvJson t (Some data))) !! index = Some None ∧
  length (chunk_store (step w (EnvJson t (Some data))))
    = max (length (chunk_store w)) (S index) ∧
  (∀ j, j ≠ index → j < length (chunk_store w) →
     chunk_store (step w (EnvJson t (Some data))) !! j = chunk_store w !! j) ∧
  (index < length (chunk_store w) →
   chunk_store (step w (EnvJson t (Some data)))
     = <[index := None]> (chunk_store w) ∧
   length (chunk_store (step w (EnvJson t (Some data))))
     = length (chunk_store w)).
Proof.
  intros Ht Hc.
  rewrite (chunk_merge_store _ _ _ _ Ht), Hc. simpl.
  destruct (array_assign_spec index (@None ChunkData) (chunk_store w))
    as (Hat & Hlen & Hrest).
  split; [exact Hat |]. split; [exact Hlen |]. split; [exact Hrest |].
  intros Hi. rewrite array_assign_in_range by done.
  split; [reflexivity | by rewrite length_insert].
Qed.

Lemma C10_empty_response_writes_undefined_witness :
  chunks nothing_heard = [] ∧
  chunk_store
    (step (run (step reviewing3 (UiStartChunkRecording 1)) rerecord_events)
       (EnvJson 2 (Some nothing_heard)))
    = [Some chunk_hi; None; Some chunk_x].
Proof.
  split; [vm_compute; reflexivity |].
  destruct (C10_empty_response_writes_undefined
              (run (step reviewing3 (UiStartChunkRecording 1)) rerecord_events)
              2 1 nothing_heard) as (_ & _ & _ & Hin).
  - vm_compute; reflexivity.
  - vm_compute; reflexivity.
  - destruct Hin as (Hst & _); [vm_compute; lia |].
    rewrite Hst. vm_compute; reflexivity.
Defined.


(** * Further properties of the store *)

(** ** Resuming a suspended method *)

Lemma run_app (w : World) (evs evs' : list Event) :
  run w (evs ++ evs') = run (run w evs) evs'.
Proof. apply foldl_app. Qed.

Lemma fetch_fail_step (w : World) (t : TaskId) (k : FetchCont)
    (response : option bool) :
  tasks w !! t = Some (TFetch k) →
  response ≠ Some true →
  step w (EnvFetch t response)
    = fetch_finally k (fetch_catch k (settle t TDone w)).
Proof. intros Ht Hr. resume Ht. by destruct response as [[|]|]. Qed.

Lemma json_ok_step (w : World) (t : TaskId) (k : FetchCont)
    (data : PredictData) :
  tasks w !! t = Some (TBody k) →
  is_synth k = false →
  step w (EnvJson t (Some data))
    = fetch_finally k (json_then k data (settle t TDone w)).
Proof. intros Ht Hk. open_step. by rewrite Ht, Hk. Qed.

Lemma json_fail_step (w : World) (t : TaskId) (k : FetchCont) :
  tasks w !! t = Some (TBody k) →
  is_synth k = false →
  step w (EnvJson t None)
    = fetch_finally k (fetch_catch k (settle t TDone w)).
Proof. intros Ht Hk. open_step. by rewrite Ht, Hk. Qed.

Lemma blob_ok_step (w : World) (t : TaskId) (audio : Blob) :
  tasks w !! t = Some (TBody KSynth) →
  step w (EnvBlob t (Some audio))
    = fetch_finally KSynth (blob_then audio (settle t TDone w)).
Proof. intros Ht. open_step. by rewrite Ht. Qed.

Lemma blob_fail_step (w : World) (t : TaskId) :
  tasks w !! t = Some (TBody KSynth) →
  step w (EnvBlob t None)
    = fetch_finally KSynth (fetch_catch KSynth (settle t TDone w)).
Proof. intros Ht. open_step. by rewrite Ht. Qed.

Lemma release_held (w : World) (s : StreamId) :
  audioStream (store w) = Some s →
  release_audioStream w
    = set_audioStream None (set_stopped (stopped w ++ [s]) w).
Proof. intros Hs. unfold release_audioStream. by rewrite Hs. Qed.

Lemma insert_last {A} (l : list A) (x y : A) :
  <[length l := y]> (l ++ [x]) = l ++ [y].
Proof. rewrite insert_app_r_alt by lia. by rewrite Nat.sub_diag. Qed.

Lemma blob_of_one (b : Blob) : blob_size (new_Blob [b]) = blob_size b.
Proof. unfold new_Blob. simpl. by rewrite app_nil_r. Qed.

(** ** Fragments *)

Lemma fragments_same (w w' : World) :
  audioChunks (store w') = audioChunks (store w) →
  fragments_nonempty w → fragments_nonempty w'.
Proof. unfold fragments_nonempty. by intros ->. Qed.

Lemma step_fragments (w : World) (e : Event) :
  fragments_nonempty w → fragments_nonempty (step w e).
Proof.
  intros Hw. destruct e; follow_branches;
    try (apply (fragments_same w); [reflexivity | assumption]).
  - unfold fragments_nonempty.
    change (audioChunks (store _)) with (@nil Blob). constructor.
  - unfold fragments_nonempty.
    change (audioChunks (store _)) with (@nil Blob). constructor.
  - apply Forall_app. split; [assumption |].
    constructor; [by apply Nat.ltb_lt | constructor].
  - apply Forall_app. split; [assumption |].
    constructor; [by apply Nat.ltb_lt | constructor].
Qed.

Lemma run_fragments (evs : list Event) (w : World) :
  fragments_nonempty w → fragments_nonempty (run w evs).
Proof.
  revert w. induction evs as [|e evs IH]; intros w Hw; simpl; [done |].
  apply IH. by apply step_fragments.
Qed.

Lemma concat_nonempty (l : list Blob) :
  Forall (λ b, 0 < blob_size b) l →
  blob_size (new_Blob l) = 0 ↔ l = [].
Proof.
  intros Hl. split; [| by intros ->].
  destruct Hl as [|b l Hb _]; [done |].
  unfold new_Blob, blob_size in *. simpl. rewrite length_app. lia.
Qed.

(** X1: whatever happens, every fragment the store keeps has content
    (empty [dataavailable] blobs are dropped), so the blob built when a
    recording stops is empty exactly when no fragment was kept. *)
Theorem fragments_kept_nonempty (evs : list Event) :
  fragments_nonempty (run init evs) ∧
  (blob_size (new_Blob (audioChunks (store (run init evs)))) = 0 ↔
   audioChunks (store (run init evs)) = []).
Proof.
  assert (H : fragments_nonempty (run init evs)).
  { apply run_fragments. constructor. }
  split; [exact H | by apply concat_nonempty].
Qed.

(** ** Streams *)

Lemma streams_same (w w' : World) :
  stopped w' = stopped w → streams w' = streams w →
  audioStream (store w') = audioStream (store w) →
  streams_ok w → streams_ok w'.
Proof. unfold streams_ok. by intros -> -> ->. Qed.

Lemma streams_grant (w w' : World) :
  stopped w' = stopped w → streams w' = S (streams w) →
  audioStream (store w') = Some (streams w) →
  streams_ok w → streams_ok w'.
Proof.
  unfold streams_ok. intros -> -> -> (Hnd & Hall & Hcur).
  split; [done |]. split.
  - eapply Forall_impl; [exact Hall |]. simpl. lia.
  - intros s [= <-]. split; [lia |].
    intros Hin. rewrite Forall_forall in Hall. specialize (Hall _ Hin). lia.
Qed.

Lemma streams_release (w w' : World) (s : StreamId) :
  audioStream (store w) = Some s →
  stopped w' = stopped w ++ [s] → streams w' = streams w →
  audioStream (store w') = None →
  streams_ok w → streams_ok w'.
Proof.
  unfold streams_ok. intros Hs -> -> -> (Hnd & Hall & Hcur).
  destruct (Hcur s Hs) as [Hlt Hnin].
  split; [| split].
  - apply NoDup_app. split; [done |]. split.
    + intros x Hx Hx'. apply list_elem_of_singleton in Hx'. by subst.
    + apply NoDup_singleton.
  - apply Forall_app. split; [done |]. by constructor.
  - intros ? [=].
Qed.

Lemma step_streams (w : World) (e : Event) :
  streams_ok w → streams_ok (step w e).
Proof.
  intros Hw. destruct e; follow_branches;
    try (apply (streams_same w); [reflexivity .. | assumption]);
    try (apply (streams_grant w); [reflexivity .. | assumption]);
    try (eapply (streams_release w);
           [eassumption | reflexivity .. | assumption]).
Qed.

Lemma run_streams (evs : list Event) (w : World) :
  streams_ok w → streams_ok (run w evs).
Proof.
  revert w. induction evs as [|e evs IH]; intros w Hw; simpl; [done |].
  apply IH. by apply step_streams.
Qed.

(** X2: whatever happens, no stream is stopped twice, and only streams
    that [getUserMedia] handed out are stopped. *)
Theorem streams_stopped_once (evs : list Event) :
  NoDup (stopped (run init evs)) ∧
  Forall (λ s, s < streams (run init evs)) (stopped (run init evs)).
Proof.
  destruct (run_streams evs init) as (Hnd & Hall & _); [| done].
  split; [constructor | split; [constructor | intros ? [=]]].
Qed.

(** ** The accent selector *)

Lemma step_accent (w : World) (e : Event) :
  enabled w e = true → accent_offered w → accent_offered (step w e).
Proof.
  intros He Hw. unfold accent_offered in *.
  destruct e; try (follow_branches; exact Hw).
  simpl in He. apply andb_true_iff in He as [_ He].
  apply orb_true_iff in He as [He | He]; apply String.eqb_eq in He;
    subst value; [by left | by right].
Qed.

Lemma run_accent (evs : list Event) (w : World) :
  feasible w evs = true → accent_offered w → accent_offered (run w evs).
Proof.
  revert w. induction evs as [|e evs IH]; intros w Hf Hw; simpl in *; [done |].
  apply andb_true_iff in Hf as [He Hf].
  apply IH; [done |]. by apply step_accent.
Qed.

(** X3: in every session the page can produce, the selected accent is
    "british" or "us"; so a synthesis is refused with "Text or accent is
    missing." exactly when the stored text is empty. *)
Theorem accent_always_offered (evs : list Event) :
  feasible init evs = true →
  accent_offered (run init evs) ∧
  (errorMessage (store (step (run init evs) UiSynthesize))
     = Some "Text or accent is missing."
   ↔ rawText (store (run init evs)) = "").
Proof.
  intros Hf.
  assert (Ha : accent_offered (run init evs)).
  { apply run_accent; [done | by left]. }
  split; [exact Ha |].
  set (w := run init evs) in *.
  assert (Hacc : falsy (selectedAccent (store w)) = false).
  { destruct Ha as [-> | ->]; reflexivity. }
  open_step. unfold handleSynthesize. cbv beta iota zeta. rewrite Hacc.
  rewrite orb_false_r.
  destruct (falsy (rawText (store w))) eqn:E.
  - apply falsy_spec in E. split; [done | reflexivity].
  - split; [discriminate |]. intros H. apply falsy_spec in H. congruence.
Qed.

Lemma accent_always_offered_witness :
  feasible init
    [UiFileUpload file_a; EnvFetch 0 (Some true); EnvJson 0 (Some upload3);
     UiSelectAccent "us"] = true ∧
  accent_offered
    (run init
       [UiFileUpload file_a; EnvFetch 0 (Some true); EnvJson 0 (Some upload3);
        UiSelectAccent "us"]).
Proof.
  split; [vm_compute; reflexivity |].
  destruct (accent_always_offered
              [UiFileUpload file_a; EnvFetch 0 (Some true);
               EnvJson 0 (Some upload3); UiSelectAccent "us"])
    as (Hacc & _).
  - vm_compute; reflexivity.
  - exact Hacc.
Defined.

(** ** Messages *)

Lemma step_message (w : World) (e : Event) :
  known_message (errorMessage (store w)) →
  known_message (errorMessage (store (step w e))).
Proof.
  intros Hw. destruct e; follow_branches; try exact Hw;
    unfold known_message; auto 6.
Qed.

(** X4: whatever happens, the error message is absent or one of "Error
    uploading audio", "Error uploading file", "Error synthesizing audio"
    and "Text or accent is missing.". *)
Theorem messages_from_catalogue (evs : list Event) :
  known_message (errorMessage (store (run init evs))).
Proof.
  assert (H : ∀ w, known_message (errorMessage (store w)) →
                   known_message (errorMessage (store (run w evs)))).
  { induction evs as [|e evs IH]; intros w Hw; simpl; [done |].
    apply IH. by apply step_message. }
  apply H. by left.
Qed.

(** ** File upload *)

(** The file upload up to the parked request. *)
Lemma upload_parked (w : World) (file : Blob) :
  tasks (handleFileUpload file w) !! length (tasks w) = Some (TFetch KFile) ∧
  length (tasks w) < length (tasks (handleFileUpload file w)).
Proof.
  change (tasks (handleFileUpload file w)) with (tasks w ++ [TFetch KFile]).
  split; [by apply list_lookup_middle |]. rewrite length_app. simpl. lia.
Qed.

(** X5: a file upload that is answered, started in any state of the
    store: the transcript is the response's chunks and the stored text
    their space-joined texts, the picture is the response's image as a
    data URL, the player's source is a new object URL of the file, one
    request carrying the file was sent, no error is shown and loading is
    over. *)
Theorem upload_succeeds (w : World) (file : Blob) (data : PredictData) :
  chunk_store (uploaded w file data) = Some <$> chunks data ∧
  rawText (store (uploaded w file data))
    = String.concat " " (text <$> chunks data) ∧
  imageSrc (store (uploaded w file data))
    = Some (String.append "data:image/png;base64," (image_base64 data)) ∧
  audioSrc (store (uploaded w file data)) = Some (length (urls w)) ∧
  urls (uploaded w file data) !! length (urls w) = Some file ∧
  errorMessage (store (uploaded w file data)) = None ∧
  isLoading (store (uploaded w file data)) = false ∧
  requests (uploaded w file data) = requests w ++ [Predict file] ∧
  tasks (uploaded w file data) !! length (tasks w) = Some TDone.
Proof.
  destruct (upload_parked w file) as [Ht Hlt].
  set (n := length (tasks w)) in *.
  set (w1 := handleFileUpload file w) in *.
  assert (Hrun : uploaded w file data
                 = fetch_finally KFile
                     (json_then KFile data
                        (settle n TDone (settle n (TBody KFile) w1)))).
  { unfold uploaded, upload_then, answered, run. cbn [foldl]. fold n.
    change (step w (UiFileUpload file)) with w1.
    rewrite (fetch_ok_step _ _ _ Ht).
    by rewrite (json_ok_step _ _ KFile data (settle_lookup _ _ _ Hlt)). }
  rewrite Hrun.
  split; [reflexivity |]. split; [reflexivity |]. split; [reflexivity |].
  split; [reflexivity |]. split.
  { change (urls (fetch_finally _ _)) with (urls w ++ [file]).
    by apply list_lookup_middle. }
  split; [reflexivity |]. split; [reflexivity |]. split; [reflexivity |].
  apply settle_lookup.
  change (tasks (settle n (TBody KFile) w1))
    with (<[n := TBody KFile]> (tasks w1)).
  by rewrite length_insert.
Qed.



(** ** Synthesis *)

Lemma synthesis_task (w : World) :
  let w1 := fetch (Synthesize (rawText (store w)) (selectedAccent (store w)))
              KSynth
              (setSynthesizedAudioSrc None
                 (setErrorMessage None (setIsLoading true w))) in
  tasks w1 !! length (tasks w) = Some (TFetch KSynth) ∧
  length (tasks w) < length (tasks w1).
Proof.
  intros w1. change (tasks w1) with (tasks w ++ [TFetch KSynth]).
  split; [by apply list_lookup_middle |]. rewrite length_app. simpl. lia.
Qed.

(** X7: a synthesis that is answered, requested with text and accent
    present: one request carrying the stored text and the selected accent
    was sent, the synthesized player's source is a new object URL of the
    returned audio, no error is shown, loading is over, and transcript,
    stored text and recorded audio are untouched. *)
Theorem synthesis_succeeds (w : World) (audio : Blob) :
  rawText (store w) ≠ "" →
  selectedAccent (store w) ≠ "" →
  synthesizedAudioSrc (store (synthesized w audio)) = Some (length (urls w)) ∧
  urls (synthesized w audio) !! length (urls w) = Some audio ∧
  requests (synthesized w audio)
    = requests w
      ++ [Synthesize (rawText (store w)) (selectedAccent (store w))] ∧
  errorMessage (store (synthesized w audio)) = None ∧
  isLoading (store (synthesized w audio)) = false ∧
  chunk_store (synthesized w audio) = chunk_store w ∧
  rawText (store (synthesized w audio)) = rawText (store w) ∧
  audioSrc (store (synthesized w audio)) = audioSrc (store w).
Proof.
  intros Htext Hacc.
  destruct (synthesis_task w) as [Ht Hlt].
  set (n := length (tasks w)) in *.
  set (w1 := fetch _ KSynth _) in *.
  assert (Hrun : synthesized w audio
                 = fetch_finally KSynth
                     (blob_then audio
                        (settle n TDone (settle n (TBody KSynth) w1)))).
  { unfold synthesized, synthesize_then, run. cbn [foldl]. fold n.
    rewrite (synthesize_parked w Htext Hacc). fold w1.
    rewrite (fetch_ok_step _ _ _ Ht).
    by rewrite (blob_ok_step _ _ audio (settle_lookup _ _ _ Hlt)). }
  rewrite Hrun.
  split; [reflexivity |]. split.
  { change (urls (fetch_finally _ _)) with (urls w ++ [audio]).
    by apply list_lookup_middle. }
  repeat split.
Qed.

Lemma synthesis_succeeds_witness :
  rawText (store reviewing3) ≠ "" ∧
  requests (synthesized reviewing3 fragment)
    = [Predict file_a; Synthesize "hi there x" "british"] ∧
  synthesizedAudioSrc (store (synthesized reviewing3 fragment)) = Some 1.
Proof.
  split; [vm_compute; discriminate |].
  destruct (synthesis_succeeds reviewing3 fragment)
    as (Hsrc & _ & Hreq & _).
  - vm_compute; discriminate.
  - vm_compute; discriminate.
  - split.
    + rewrite Hreq. vm_compute; reflexivity.
    + rewrite Hsrc. vm_compute; reflexivity.
Defined.

(** X8: a synthesis that fails in any of the three ways: the request was
    sent, "Error synthesizing audio" is shown, loading is over, the
    synthesized player has no source any more (it was cleared when the
    request was made), and transcript and stored text are untouched. *)
Theorem synthesis_failure (w : World) (tail : list Event) :
  rawText (store w) ≠ "" →
  selectedAccent (store w) ≠ "" →
  tail ∈ synth_failures (length (tasks w)) →
  synthesizedAudioSrc (store (synthesize_then w tail)) = None ∧
  errorMessage (store (synthesize_then w tail))
    = Some "Error synthesizing audio" ∧
  isLoading (store (synthesize_then w tail)) = false ∧
  requests (synthesize_then w tail)
    = requests w
      ++ [Synthesize (rawText (store w)) (selectedAccent (store w))] ∧
  chunk_store (synthesize_then w tail) = chunk_store w ∧
  rawText (store (synthesize_then w tail)) = rawText (store w).
Proof.
  intros Htext Hacc Hin.
  destruct (synthesis_task w) as [Ht Hlt].
  set (n := length (tasks w)) in *.
  set (w1 := fetch _ KSynth _) in *.
  assert (Hrun : ∃ w2,
    synthesize_then w tail
      = fetch_finally KSynth (fetch_catch KSynth (settle n TDone w2)) ∧
    (w2 = w1 ∨ w2 = settle n (TBody KSynth) w1)).
  { unfold synth_failures in Hin.
    repeat (apply elem_of_cons in Hin as [-> | Hin]);
      [| | | by apply elem_of_nil in Hin];
      unfold synthesize_then, run; cbn [foldl];
      rewrite (synthesize_parked w Htext Hacc); fold w1.
    - exists w1. split; [| by left]. by apply fetch_fail_step.
    - exists w1. split; [| by left]. by apply fetch_fail_step.
    - exists (settle n (TBody KSynth) w1). split; [| by right].
      rewrite (fetch_ok_step _ _ _ Ht).
      by apply blob_fail_step, settle_lookup. }
  destruct Hrun as (w2 & -> & [-> | ->]); repeat split.
Qed.

Lemma synthesis_failure_witness :
  [EnvFetch 1 (Some true); EnvBlob 1 None] ∈ synth_failures 1 ∧
  errorMessage
    (store (synthesize_then reviewing3 [EnvFetch 1 (Some true); EnvBlob 1 None]))
    = Some "Error synthesizing audio".
Proof.
  split; [do 2 (apply elem_of_cons; right); apply elem_of_cons; by left |].
  destruct (synthesis_failure reviewing3
              [EnvFetch 1 (Some true); EnvBlob 1 None]) as (_ & Herr & _).
  - vm_compute; discriminate.
  - vm_compute; discriminate.
  - replace (length (tasks reviewing3)) with 1 by (vm_compute; reflexivity).
    do 2 (apply elem_of_cons; right); apply elem_of_cons; by left.
  - exact Herr.
Defined.

(** ** A refused microphone *)

(** X9: a capture whose microphone request is refused: recording is off
    again and only a console line says so; no error is shown, no recorder
    or stream exists, and the transcript and picture that were on the
    page are gone while the stored text stays. *)
Theorem capture_refused (w : World) :
  isRecording (store w) = false →
  isRecording (store (capture_denied w)) = false ∧
  errorMessage (store (capture_denied w)) = None ∧
  console (capture_denied w) = console w ++ ["Error starting recording:"] ∧
  chunk_store (capture_denied w) = [] ∧
  imageSrc (store (capture_denied w)) = None ∧
  rawText (store (capture_denied w)) = rawText (store w) ∧
  recorders (capture_denied w) = recorders w ∧
  streams (capture_denied w) = streams w ∧
  requests (capture_denied w) = requests w.
Proof.
  intros Hrec.
  assert (H1 : step w UiStartStop = handleStartRecording w).
  { open_step. unfold handleStartStopRecording. by rewrite Hrec. }
  assert (H2 : step (handleStartRecording w)
                 (EnvGetUserMedia (length (tasks w)) false)
               = getUserMedia_catch OnStopFull
                   (settle (length (tasks w)) TDone (handleStartRecording w))).
  { open_step.
    change (tasks (handleStartRecording w))
      with (tasks w ++ [TGetUserMedia OnStopFull]).
    by rewrite list_lookup_middle. }
  unfold capture_denied, run. cbn [foldl]. rewrite H1, H2. repeat split.
Qed.

Lemma capture_refused_witness :
  isRecording (store reviewing3) = false ∧
  chunk_store (capture_denied reviewing3) = [] ∧
  errorMessage (store (capture_denied reviewing3)) = None.
Proof.
  split; [vm_compute; reflexivity |].
  destruct (capture_refused reviewing3) as (_ & Herr & _ & Hst & _).
  - vm_compute; reflexivity.
  - split; [exact Hst | exact Herr].
Defined.

(** X10: a re-record whose microphone request is refused changes nothing
    in the store but [chunkBeingRecorded], which keeps the index: the
    transcript and the error message are as before, nothing is sent and
    only a console line says so. *)
Theorem rerecord_refused (w : World) (index : nat) :
  isRecording (store w) = false →
  store (rerecord_denied w index)
    = store (set_chunkBeingRecorded (Some index) w) ∧
  console (rerecord_denied w index)
    = console w ++ ["Error starting chunk recording:"] ∧
  recorders (rerecord_denied w index) = recorders w ∧
  streams (rerecord_denied w index) = streams w ∧
  requests (rerecord_denied w index) = requests w.
Proof.
  intros Hrec.
  set (w1 := await (TGetUserMedia (OnStopChunk index))
               (setIsRecording true (set_chunkBeingRecorded (Some index) w))).
  assert (H1 : step w (UiStartChunkRecording index) = w1).
  { open_step. unfold handleStartChunkRecording. by rewrite Hrec. }
  assert (H2 : step w1 (EnvGetUserMedia (length (tasks w)) false)
               = getUserMedia_catch (OnStopChunk index)
                   (settle (length (tasks w)) TDone w1)).
  { open_step.
    change (tasks w1) with (tasks w ++ [TGetUserMedia (OnStopChunk index)]).
    by rewrite list_lookup_middle. }
  unfold rerecord_denied, run. cbn [foldl]. rewrite H1, H2.
  split; [| repeat split].
  destruct w as [[im au rc ld er td sy ac rt mr ast chs cb] ? ? ? ? ? ? ? ?].
  simpl in Hrec. subst rc. reflexivity.
Qed.

Lemma rerecord_refused_witness :
  isRecording (store reviewing3) = false ∧
  chunk_store (rerecord_denied reviewing3 1)
    = [Some chunk_hi; Some chunk_there; Some chunk_x] ∧
  chunkBeingRecorded (store (rerecord_denied reviewing3 1)) = Some 1.
Proof.
  split; [vm_compute; reflexivity |].
  destruct (rerecord_refused reviewing3 1) as (Hst & _).
  - vm_compute; reflexivity.
  - rewrite Hst. split; vm_compute; reflexivity.
Defined.

(** ** Recordings carried through *)

Lemma recording_run (h : StopHandler) (b : Blob) (n : TaskId) (w1 : World) :
  tasks w1 !! n = Some (TGetUserMedia h) →
  isRecording (store w1) = true →
  0 < blob_size b →
  run w1 (recording_events n (length (recorders w1)) b)
    = run_onstop h (recorded h b n w1).
Proof.
  intros Ht Hrec Hb.
  set (r := length (recorders w1)). set (s := streams w1).
  (* the microphone is granted: recorder [r] records *)
  set (m := {| stream := s; state := recording; onstop := h;
               stop_queued := false |}).
  set (w2 := set_recorders (recorders w1 ++ [m])
               (set_mediaRecorder (Some r)
                  (set_audioChunks []
                     (set_audioStream (Some s)
                        (set_streams (S s) (settle n TDone w1)))))).
  assert (H2 : step w1 (EnvGetUserMedia n true) = w2).
  { resume Ht. apply getUserMedia_then_eq. }
  (* the button: [stop()], and [isRecording] is reset *)
  set (m1 := {| stream := s; state := inactive; onstop := h;
                stop_queued := true |}).
  set (w3 := setIsRecording false (set_recorders (recorders w1 ++ [m1]) w2)).
  assert (H3 : step w2 UiStartStop = w3).
  { open_step. unfold handleStartStopRecording, handleStopRecording.
    change (isRecording (store w2)) with (isRecording (store w1)).
    rewrite Hrec.
    change (mediaRecorder (store w2)) with (Some r). cbv beta iota.
    unfold recorder_stop.
    change (recorders w2) with (recorders w1 ++ [m]).
    rewrite list_lookup_middle by reflexivity. cbv beta iota.
    change (state m) with recording. cbv beta iota.
    unfold r. by rewrite insert_last. }
  (* the fragment is kept *)
  set (w4 := set_audioChunks [b] w3).
  assert (H4 : step w3 (EnvDataAvailable r b) = w4).
  { open_step.
    change (recorders w3) with (recorders w1 ++ [m1]).
    rewrite list_lookup_middle by reflexivity. cbv beta iota.
    unfold ondataavailable.
    destruct (Nat.ltb_spec 0 (blob_size b)); [reflexivity | lia]. }
  (* the [stop] event *)
  assert (H5 : step w4 (EnvStop r) = run_onstop h (recorded h b n w1)).
  { unfold step.
    change (recorders w4) with (recorders w1 ++ [m1]).
    rewrite list_lookup_middle by reflexivity. cbv beta iota.
    change (stop_queued m1) with true. cbv beta iota.
    change (onstop m1) with h. f_equal.
    unfold r. rewrite insert_last. reflexivity. }
  unfold recording_events, run. cbn [foldl]. fold r.
  by rewrite H2, H3, H4, H5.
Qed.

Lemma recording_onstop_sends (w : World) :
  blob_size (new_Blob (audioChunks (store w))) ≠ 0 →
  recording_onstop w
    = fetch (Predict (new_Blob (audioChunks (store w)))) KFull
        (setIsLoading true
           (setAudioSrc (Some (length (urls w)))
              (createObjectURL (new_Blob (audioChunks (store w))) w))).
Proof.
  intros Hsz. unfold recording_onstop. cbv beta iota zeta.
  by destruct (Nat.eqb_spec (blob_size (new_Blob (audioChunks (store w)))) 0).
Qed.

(** Where the request of a recording is parked: right after the settled
    microphone task. *)
Lemma recorded_parked (h : StopHandler) (b : Blob) (k : FetchCont)
    (req : Request) (w1 : World) (ts : list Task) (f : World → World) :
  tasks w1 = ts ++ [TGetUserMedia h] →
  (∀ w, tasks (f w) = tasks w) →
  tasks (fetch req k (f (recorded h b (length ts) w1))) !! S (length ts)
    = Some (TFetch k) ∧
  S (length ts)
    < length (tasks (fetch req k (f (recorded h b (length ts) w1)))).
Proof.
  intros Hts Hf.
  change (tasks (fetch req k (f (recorded h b (length ts) w1))))
    with (tasks (f (recorded h b (length ts) w1)) ++ [TFetch k]).
  rewrite Hf.
  change (tasks (recorded h b (length ts) w1))
    with (<[length ts := TDone]> (tasks w1)).
  rewrite Hts.
  assert (Hlen : length (<[length ts := TDone]> (ts ++ [TGetUserMedia h]))
                 = S (length ts)).
  { rewrite length_insert, length_app. simpl. lia. }
  split.
  - by apply list_lookup_middle.
  - rewrite length_app, Hlen. simpl. lia.
Qed.

(** A capture carried through on its own, up to the parked request. *)
Lemma capture_parked (w : World) (b : Blob) :
  isRecording (store w) = false →
  0 < blob_size b →
  run w (UiStartStop
           :: recording_events (length (tasks w)) (length (recorders w)) b)
    = fetch (Predict (new_Blob [b])) KFull
        (setIsLoading true
           (setAudioSrc (Some (length (urls w)))
              (createObjectURL (new_Blob [b])
                 (recorded OnStopFull b (length (tasks w))
                    (handleStartRecording w))))).
Proof.
  intros Hrec Hb.
  assert (H1 : step w UiStartStop = handleStartRecording w).
  { open_step. unfold handleStartStopRecording. by rewrite Hrec. }
  change (run w (UiStartStop :: ?evs))
    with (run (step w UiStartStop) evs).
  rewrite H1.
  change (length (recorders w))
    with (length (recorders (handleStartRecording w))).
  rewrite (recording_run OnStopFull); [| | reflexivity | done].
  - unfold run_onstop. rewrite recording_onstop_sends; [reflexivity |].
    change (audioChunks (store (recorded _ _ _ _))) with [b].
    rewrite blob_of_one. lia.
  - change (tasks (handleStartRecording w))
      with (tasks w ++ [TGetUserMedia OnStopFull]).
    by apply list_lookup_middle.
Qed.

(** A re-record carried through on its own, up to the parked request. *)
Lemma rerecord_parked (w : World) (index : nat) (b : Blob) :
  isRecording (store w) = false →
  0 < blob_size b →
  run w (UiStartChunkRecording index
           :: recording_events (length (tasks w)) (length (recorders w)) b)
    = fetch (Predict (new_Blob [b])) (KChunk index)
        (setIsLoading true
           (recorded (OnStopChunk index) b (length (tasks w))
              (await (TGetUserMedia (OnStopChunk index))
                 (setIsRecording true
                    (set_chunkBeingRecorded (Some index) w))))).
Proof.
  intros Hrec Hb.
  set (w1 := await (TGetUserMedia (OnStopChunk index))
               (setIsRecording true (set_chunkBeingRecorded (Some index) w))).
  assert (H1 : step w (UiStartChunkRecording index) = w1).
  { open_step. unfold handleStartChunkRecording. by rewrite Hrec. }
  change (run w (UiStartChunkRecording index :: ?evs))
    with (run (step w (UiStartChunkRecording index)) evs).
  rewrite H1.
  change (length (recorders w)) with (length (recorders w1)).
  rewrite (recording_run (OnStopChunk index)); [| | reflexivity | done].
  - unfold run_onstop. rewrite chunk_onstop_sends; [reflexivity |].
    change (audioChunks (store (recorded _ _ _ _))) with [b].
    rewrite blob_of_one. lia.
  - change (tasks w1) with (tasks w ++ [TGetUserMedia (OnStopChunk index)]).
    by apply list_lookup_middle.
Qed.

(** X11: a capture carried through on its own and answered: the
    transcript, the stored text and the picture are those of the
    response, the player's source is a new object URL of the recording,
    one request carrying the recording was sent, the one stream handed
    out was stopped once and is no longer held, and recording and loading
    are over with no error shown. *)
Theorem capture_succeeds (w : World) (b : Blob) (data : PredictData) :
  isRecording (store w) = false →
  0 < blob_size b →
  chunk_store (captured w b data) = Some <$> chunks data ∧
  rawText (store (captured w b data))
    = String.concat " " (text <$> chunks data) ∧
  imageSrc (store (captured w b data))
    = Some (String.append "data:image/png;base64," (image_base64 data)) ∧
  audioSrc (store (captured w b data)) = Some (length (urls w)) ∧
  urls (captured w b data) !! length (urls w) = Some (new_Blob [b]) ∧
  requests (captured w b data) = requests w ++ [Predict (new_Blob [b])] ∧
  errorMessage (store (captured w b data)) = None ∧
  isRecording (store (captured w b data)) = false ∧
  isLoading (store (captured w b data)) = false ∧
  audioStream (store (captured w b data)) = None ∧
  stopped (captured w b data) = stopped w ++ [streams w] ∧
  streams (captured w b data) = S (streams w).
Proof.
  intros Hrec Hb.
  pose proof (capture_parked w b Hrec Hb) as Hp.
  destruct (recorded_parked OnStopFull b KFull (Predict (new_Blob [b]))
              (handleStartRecording w) (tasks w)
              (λ x, setIsLoading true
                      (setAudioSrc (Some (length (urls w)))
                         (createObjectURL (new_Blob [b]) x))))
    as [Ht Hlt]; [reflexivity | reflexivity |].
  set (n := length (tasks w)) in *.
  set (p := fetch (Predict (new_Blob [b])) KFull _) in *.
  assert (Hrun : captured w b data
                 = fetch_finally KFull
                     (json_then KFull data
                        (settle (S n) TDone (settle (S n) (TBody KFull) p)))).
  { unfold captured, capture_then. fold n.
    change (UiStartStop :: ?evs ++ ?tl) with ((UiStartStop :: evs) ++ tl).
    rewrite run_app, Hp.
    unfold answered, run. cbn [foldl].
    rewrite (fetch_ok_step _ _ _ Ht).
    by rewrite (json_ok_step _ _ KFull data (settle_lookup _ _ _ Hlt)). }
  rewrite Hrun. unfold fetch_finally.
  rewrite (release_held _ (streams w)) by reflexivity.
  split; [reflexivity |]. split; [reflexivity |]. split; [reflexivity |].
  split; [reflexivity |]. split.
  { change (urls (set_audioStream _ _)) with (urls w ++ [new_Blob [b]]).
    by apply list_lookup_middle. }
  repeat split.
Qed.

Lemma capture_succeeds_witness :
  0 < blob_size fragment ∧
  chunk_store (captured init fragment upload3)
    = [Some chunk_hi; Some chunk_there; Some chunk_x] ∧
  stopped (captured init fragment upload3) = [0].
Proof.
  split; [vm_compute; lia |].
  destruct (capture_succeeds init fragment upload3)
    as (Hst & _ & _ & _ & _ & _ & _ & _ & _ & _ & Hstop & _).
  - vm_compute; reflexivity.
  - vm_compute; lia.
  - split; [exact Hst | exact Hstop].
Defined.



(** X13: a re-record carried through on its own and answered, for any
    index and any response: the merge writes the response's first chunk
    at the index and nothing else of the response is used, so picture,
    player source, stored text and error message are as before; one
    request carrying the recording was sent, the stream was stopped once
    and is no longer held, the index is cleared and recording and loading
    are over. *)
Theorem rerecord_succeeds (w : World) (index : nat) (b : Blob)
    (data : PredictData) :
  isRecording (store w) = false →
  0 < blob_size b →
  chunk_store (rerecorded w index b data)
    = array_assign index (head (chunks data)) (chunk_store w) ∧
  imageSrc (store (rerecorded w index b data)) = imageSrc (store w) ∧
  audioSrc (store (rerecorded w index b data)) = audioSrc (store w) ∧
  rawText (store (rerecorded w index b data)) = rawText (store w) ∧
  errorMessage (store (rerecorded w index b data)) = errorMessage (store w) ∧
  requests (rerecorded w index b data)
    = requests w ++ [Predict (new_Blob [b])] ∧
  chunkBeingRecorded (store (rerecorded w index b data)) = None ∧
  isRecording (store (rerecorded w index b data)) = false ∧
  isLoading (store (rerecorded w index b data)) = false ∧
  audioStream (store (rerecorded w index b data)) = None ∧
  stopped (rerecorded w index b data) = stopped w ++ [streams w].
Proof.
  intros Hrec Hb.
  pose proof (rerecord_parked w index b Hrec Hb) as Hp.
  destruct (recorded_parked (OnStopChunk index) b (KChunk index)
              (Predict (new_Blob [b]))
              (await (TGetUserMedia (OnStopChunk index))
                 (setIsRecording true (set_chunkBeingRecorded (Some index) w)))
              (tasks w) (setIsLoading true))
    as [Ht Hlt]; [reflexivity | reflexivity |].
  set (n := length (tasks w)) in *.
  set (p := fetch (Predict (new_Blob [b])) (KChunk index) _) in *.
  assert (Hrun : rerecorded w index b data
                 = fetch_finally (KChunk index)
                     (json_then (KChunk index) data
                        (settle (S n) TDone
                           (settle (S n) (TBody (KChunk index)) p)))).
  { unfold rerecorded, rerecord_then. fold n.
    change (UiStartChunkRecording index :: ?evs ++ ?tl)
      with ((UiStartChunkRecording index :: evs) ++ tl).
    rewrite run_app, Hp.
    unfold answered, run. cbn [foldl].
    rewrite (fetch_ok_step _ _ _ Ht).
    by rewrite (json_ok_step _ _ (KChunk index) data
                  (settle_lookup _ _ _ Hlt)). }
  rewrite Hrun. unfold fetch_finally.
  rewrite (release_held _ (streams w)) by reflexivity.
  repeat split.
Qed.

Lemma rerecord_succeeds_witness :
  isRecording (store reviewing3) = false ∧
  chunk_store (rerecorded reviewing3 1 fragment rerecord1)
    = [Some chunk_hi; Some chunk_there_again; Some chunk_x] ∧
  imageSrc (store (rerecorded reviewing3 1 fragment rerecord1))
    = imageSrc (store reviewing3).
Proof.
  split; [vm_compute; reflexivity |].
  destruct (rerecord_succeeds reviewing3 1 fragment rerecord1)
    as (Hst & Him & _).
  - vm_compute; reflexivity.
  - vm_compute; lia.
  - split; [| exact Him]. rewrite Hst. vm_compute; reflexivity.
Defined.

(** X14: a re-record carried through on its own whose request fails in
    any of the three ways: every chunk is as it was, "Error uploading
    audio" is shown, the stored text is untouched, the stream was stopped
    once and is no longer held, the index is cleared and recording and
    loading are over. *)
Theorem rerecord_failure_keeps_chunks (w : World) (index : nat) (b : Blob)
    (tail : list Event) :
  isRecording (store w) = false →
  0 < blob_size b →
  tail ∈ predict_failures (S (length (tasks w))) →
  chunk_store (rerecord_then w index b tail) = chunk_store w ∧
  errorMessage (store (rerecord_then w index b tail))
    = Some "Error uploading audio" ∧
  rawText (store (rerecord_then w index b tail)) = rawText (store w) ∧
  chunkBeingRecorded (store (rerecord_then w index b tail)) = None ∧
  isRecording (store (rerecord_then w index b tail)) = false ∧
  isLoading (store (rerecord_then w index b tail)) = false ∧
  audioStream (store (rerecord_then w index b tail)) = None ∧
  stopped (rerecord_then w index b tail) = stopped w ++ [streams w].
Proof.
  intros Hrec Hb Hin.
  pose proof (rerecord_parked w index b Hrec Hb) as Hp.
  destruct (recorded_parked (OnStopChunk index) b (KChunk index)
              (Predict (new_Blob [b]))
              (await (TGetUserMedia (OnStopChunk index))
                 (setIsRecording true (set_chunkBeingRecorded (Some index) w)))
              (tasks w) (setIsLoading true))
    as [Ht Hlt]; [reflexivity | reflexivity |].
  set (n := length (tasks w)) in *.
  set (p := fetch (Predict (new_Blob [b])) (KChunk index) _) in *.
  assert (Hrun : ∃ w2,
    rerecord_then w index b tail
      = fetch_finally (KChunk index)
          (fetch_catch (KChunk index) (settle (S n) TDone w2)) ∧
    (w2 = p ∨ w2 = settle (S n) (TBody (KChunk index)) p)).
  { unfold rerecord_then. fold n.
    change (UiStartChunkRecording index :: ?evs ++ ?tl)
      with ((UiStartChunkRecording index :: evs) ++ tl).
    rewrite run_app, Hp.
    unfold predict_failures in Hin.
    repeat (apply elem_of_cons in Hin as [-> | Hin]);
      [| | | by apply elem_of_nil in Hin]; unfold run; cbn [foldl].
    - exists p. split; [| by left]. by apply fetch_fail_step.
    - exists p. split; [| by left]. by apply fetch_fail_step.
    - exists (settle (S n) (TBody (KChunk index)) p). split; [| by right].
      rewrite (fetch_ok_step _ _ _ Ht).
      by apply json_fail_step; [apply settle_lookup |]. }
  destruct Hrun as (w2 & -> & [-> | ->]); unfold fetch_finally;
    rewrite (release_held _ (streams w)) by reflexivity; repeat split.
Qed.

Lemma rerecord_failure_keeps_chunks_witness :
  [EnvFetch 2 (Some true); EnvJson 2 None] ∈ predict_failures 2 ∧
  chunk_store
    (rerecord_then reviewing3 1 fragment
       [EnvFetch 2 (Some true); EnvJson 2 None])
    = [Some chunk_hi; Some chunk_there; Some chunk_x].
Proof.
  split; [do 2 (apply elem_of_cons; right); apply elem_of_cons; by left |].
  destruct (rerecord_failure_keeps_chunks reviewing3 1 fragment
              [EnvFetch 2 (Some true); EnvJson 2 None]) as (Hst & _).
  - vm_compute; reflexivity.
  - vm_compute; lia.
  - replace (length (tasks reviewing3)) with 1 by (vm_compute; reflexivity).
    do 2 (apply elem_of_cons; right); apply elem_of_cons; by left.
  - rewrite Hst. vm_compute; reflexivity.
Defined.

(** ** Empty recordings, whichever method started them *)

(** X15: when a recording, full or of a chunk, is stopped and its blob is
    empty, the store is as it was except that [isRecording] is false:
    transcript, messages, [chunkBeingRecorded] and the held stream are
    untouched, no track is stopped, nothing is sent or left pending, and
    one console line says so. *)
Theorem empty_stop_changes_nothing (w : World) (r : RecorderId)
    (m : MediaRecorder) :
  isRecording (store w) = true →
  mediaRecorder (store w) = Some r →
  recorders w !! r = Some m →
  state m = recording →
  blob_size (new_Blob (audioChunks (store w))) = 0 →
  store (run w (stop_with_nothing r)) = store (setIsRecording false w) ∧
  stopped (run w (stop_with_nothing r)) = stopped w ∧
  requests (run w (stop_with_nothing r)) = requests w ∧
  tasks (run w (stop_with_nothing r)) = tasks w ∧
  console (run w (stop_with_nothing r))
    = console w ++ ["Recorded audio blob is empty."] ∧
  recorders (run w (stop_with_nothing r))
    = <[r := {| stream := stream m; state := inactive; onstop := onstop m;
                stop_queued := false |}]> (recorders w).
Proof.
  intros Hrec Hmr Hr Hst Hsize.
  assert (Hlt : r < length (recorders w)) by (by eapply lookup_lt_Some).
  set (m1 := {| stream := stream m; state := inactive; onstop := onstop m;
                stop_queued := true |}).
  set (m2 := {| stream := stream m; state := inactive; onstop := onstop m;
                stop_queued := false |}).
  set (w1 := setIsRecording false
               (set_recorders (<[r := m1]> (recorders w)) w)).
  assert (H1 : step w UiStartStop = w1).
  { open_step. unfold handleStartStopRecording, handleStopRecording.
    rewrite Hrec, Hmr. unfold recorder_stop. by rewrite Hr, Hst. }
  assert (Hr1 : recorders w1 !! r = Some m1).
  { change (recorders w1) with (<[r := m1]> (recorders w)).
    by apply list_lookup_insert_eq. }
  assert (H2 : step w1 (EnvDataAvailable r []) = w1).
  { open_step. by rewrite Hr1. }
  assert (H3 : step w1 (EnvStop r)
               = console_error "Recorded audio blob is empty."
                   (set_recorders (<[r := m2]> (recorders w)) w1)).
  { unfold step. rewrite Hr1. cbv beta iota.
    change (stop_queued m1) with true. cbv beta iota.
    change (recorders w1) with (<[r := m1]> (recorders w)).
    rewrite list_insert_insert_eq.
    change (onstop m1) with (onstop m).
    destruct (onstop m); unfold run_onstop, recording_onstop, chunk_onstop;
      cbv beta iota zeta;
      change (audioChunks (store (set_recorders _ w1)))
        with (audioChunks (store w));
      by rewrite Hsize. }
  unfold stop_with_nothing, run. cbn [foldl].
  rewrite H1, H2, H3. repeat split.
Qed.

Lemma empty_stop_changes_nothing_witness :
  isRecording (store rerecording1) = true ∧
  chunkBeingRecorded (store (run rerecording1 (stop_with_nothing 0)))
    = Some 1 ∧
  audioStream (store (run rerecording1 (stop_with_nothing 0))) = Some 0 ∧
  stopped (run rerecording1 (stop_with_nothing 0)) = [].
Proof.
  split; [vm_compute; reflexivity |].
  destruct (empty_stop_changes_nothing rerecording1 0
              {| stream := 0; state := recording; onstop := OnStopChunk 1;
                 stop_queued := false |})
    as (Hst & Hstop & _); try (vm_compute; reflexivity).
  split; [| split].
  - rewrite Hst. vm_compute; reflexivity.
  - rewrite Hst. vm_compute; reflexivity.
  - rewrite Hstop. vm_compute; reflexivity.
Defined.

(** ** The merge at the edges *)

(** X16: when the transcript has become too short for the index by the
    time a re-record's response is merged, the sequence grows to reach
    it: the stored chunks stay, the positions in between read
    [undefined], and the response's first chunk sits at the index. *)
Theorem merge_beyond_end_grows (w : World) (t : TaskId) (index : nat)
    (data : PredictData) :
  tasks w !! t = Some (TBody (KChunk index)) →
  length (chunk_store w) ≤ index →
  chunk_store (step w (EnvJson t (Some data)))
    = chunk_store w
      ++ replicate (index - length (chunk_store w)) None
      ++ [head (chunks data)] ∧
  length (chunk_store (step w (EnvJson t (Some data)))) = S index ∧
  chunk_store (step w (EnvJson t (Some data))) !! index
    = Some (head (chunks data)) ∧
  (∀ j, j < length (chunk_store w) →
     chunk_store (step w (EnvJson t (Some data))) !! j = chunk_store w !! j) ∧
  (∀ j, length (chunk_store w) ≤ j < index →
     chunk_store (step w (EnvJson t (Some data))) !! j = Some None).
Proof.
  intros Ht Hlen. rewrite (chunk_merge_store _ _ _ _ Ht).
  set (l := chunk_store w) in *. set (v := head (chunks data)).
  assert (Hassign : array_assign index v l
                    = l ++ replicate (index - length l) None ++ [v]).
  { unfold array_assign.
    destruct (Nat.ltb_spec index (length l)); [lia | reflexivity]. }
  rewrite Hassign. split; [reflexivity |]. split; [| split; [| split]].
  - rewrite !length_app, length_replicate. simpl. lia.
  - rewrite lookup_app_r by lia.
    apply list_lookup_middle. by rewrite length_replicate.
  - intros j Hj. by rewrite lookup_app_l.
  - intros j [Hj1 Hj2]. rewrite lookup_app_r by lia.
    rewrite lookup_app_l by (rewrite length_replicate; lia).
    apply lookup_replicate_2. lia.
Qed.

Lemma merge_beyond_end_grows_witness :
  feasible reviewing3 (UiStartChunkRecording 2 :: shortened_events) = true ∧
  chunk_store (run (step reviewing3 (UiStartChunkRecording 2)) shortened_events)
    = [Some chunk_silent] ∧
  chunk_store
    (step (run (step reviewing3 (UiStartChunkRecording 2)) shortened_events)
       (EnvJson 3 (Some rerecord1)))
    = [Some chunk_silent; None; Some chunk_there_again].
Proof.
  split; [vm_compute; reflexivity |]. split; [vm_compute; reflexivity |].
  destruct (merge_beyond_end_grows
              (run (step reviewing3 (UiStartChunkRecording 2)) shortened_events)
              3 2 rerecord1) as (Hstore & _).
  - vm_compute; reflexivity.
  - vm_compute; lia.
  - rewrite Hstore. vm_compute; reflexivity.
Defined.

(** X17: when the response to a re-record holds several chunks and the
    index is within the transcript, only the first is merged; the others
    are dropped and the length stays. *)
Theorem merge_uses_first_chunk (w : World) (t : TaskId) (index : nat)
    (data : PredictData) (c : ChunkData) (others : list ChunkData) :
  tasks w !! t = Some (TBody (KChunk index)) →
  chunks data = c :: others →
  index < length (chunk_store w) →
  chunk_store (step w (EnvJson t (Some data)))
    = <[index := Some c]> (chunk_store w) ∧
  length (chunk_store (step w (EnvJson t (Some data))))
    = length (chunk_store w).
Proof.
  intros Ht Hc Hi. rewrite (chunk_merge_store _ _ _ _ Ht), Hc. simpl.
  rewrite array_assign_in_range by done.
  split; [reflexivity | by rewrite length_insert].
Qed.

Lemma merge_uses_first_chunk_witness :
  chunks upload2 = chunk_good :: [chunk_morning] ∧
  chunk_store
    (step (run (step reviewing3 (UiStartChunkRecording 1)) rerecord_events)
       (EnvJson 2 (Some upload2)))
    = [Some chunk_hi; Some chunk_good; Some chunk_x].
Proof.
  split; [vm_compute; reflexivity |].
  destruct (merge_uses_first_chunk
              (run (step reviewing3 (UiStartChunkRecording 1)) rerecord_events)
              2 1 upload2 chunk_good [chunk_morning]) as (Hstore & _).
  - vm_compute; reflexivity.
  - vm_compute; reflexivity.
  - vm_compute; lia.
  - rewrite Hstore. vm_compute; reflexivity.
Defined.

(** ** Playing a chunk *)

Lemma playback_before_end (audio : Audio) (e : Q) (positions : list Q) :
  paused audio = false →
  listener audio = Some e →
  Forall (λ p, (p < e)%Q) positions →
  paused (playback audio positions) = false ∧
  listener (playback audio positions) = Some e ∧
  audio_src (playback audio positions) = audio_src audio ∧
  currentTime (playback audio positions)
    = default (currentTime audio) (last positions).
Proof.
  intros Hp Hl Hall. revert audio Hp Hl.
  induction Hall as [|p ps Hlt _ IH]; intros audio Hp Hl; [done |].
  assert (Hstep : timeupdate audio p
                  = {| audio_src := audio_src audio; currentTime := p;
                       paused := false; listener := Some e |}).
  { unfold timeupdate. rewrite Hp, Hl. unfold handleTimeUpdate. simpl.
    destruct (Qle_bool e p) eqn:E; [| reflexivity].
    apply Qle_bool_iff in E. by apply Qlt_not_le in Hlt. }
  unfold playback in *. cbn [foldl]. rewrite Hstep.
  destruct (IH {| audio_src := audio_src audio; currentTime := p;
                  paused := false; listener := Some e |} eq_refl eq_refl)
    as (H1 & H2 & H3 & H4).
  repeat split; [done | done | done |].
  rewrite H4. destruct ps as [|q ps]; [done |].
  change (last (p :: q :: ps)) with (last (q :: ps)).
  destruct (last (q :: ps)) eqn:E; [done |]. by apply last_None in E.
Qed.

Lemma playback_paused (audio : Audio) (positions : list Q) :
  paused audio = true → playback audio positions = audio.
Proof.
  intros Hp. induction positions as [|p ps IH]; [done |].
  unfold playback in *. cbn [foldl]. unfold timeupdate at 2.
  by rewrite Hp.
Qed.

(** X18: playing a chunk plays the store's audio source; the element
    keeps playing while the reported positions are before [end], is
    paused at the first reported position at or past [end], stays there
    whatever is reported afterwards, and its listener is gone. *)
Theorem play_stops_at_end (w : World) (s e : Q) (audio : Audio)
    (before after : list Q) (t : Q) :
  handlePlayChunk s e w = Some audio →
  Forall (λ p, (p < e)%Q) before →
  (e <= t)%Q →
  Some (audio_src audio) = audioSrc (store w) ∧
  paused (playback audio before) = false ∧
  currentTime (playback audio before) = default s (last before) ∧
  paused (playback audio (before ++ t :: after)) = true ∧
  currentTime (playback audio (before ++ t :: after)) = t ∧
  listener (playback audio (before ++ t :: after)) = None.
Proof.
  intros Hplay Hbefore Ht. unfold handlePlayChunk in Hplay.
  destruct (audioSrc (store w)) as [url|] eqn:Hsrc; [| discriminate].
  injection Hplay as <-.
  destruct (playback_before_end
              {| audio_src := url; currentTime := s; paused := false;
                 listener := Some e |} e before eq_refl eq_refl Hbefore)
    as (Hp & Hl & _ & Hct).
  split; [done |]. split; [exact Hp |]. split; [exact Hct |].
  set (a1 := playback _ before) in *.
  assert (Hstop : timeupdate a1 t
                  = {| audio_src := audio_src a1; currentTime := t;
                       paused := true; listener := None |}).
  { unfold timeupdate. rewrite Hp, Hl. unfold handleTimeUpdate. simpl.
    destruct (Qle_bool e t) eqn:E; [reflexivity |].
    apply Qle_bool_iff in Ht. congruence. }
  assert (Hrun : playback
                   {| audio_src := url; currentTime := s; paused := false;
                      listener := Some e |} (before ++ t :: after)
                 = {| audio_src := audio_src a1; currentTime := t;
                      paused := true; listener := None |}).
  { unfold playback. rewrite foldl_app. cbn [foldl].
    fold (playback {| audio_src := url; currentTime := s; paused := false;
                      listener := Some e |} before).
    fold a1. rewrite Hstop. by apply playback_paused. }
  rewrite Hrun. repeat split.
Qed.

Lemma play_stops_at_end_witness :
  handlePlayChunk 1 2 reviewing3
    = Some {| audio_src := 0; currentTime := 1; paused := false;
              listener := Some 2%Q |} ∧
  currentTime
    (playback {| audio_src := 0; currentTime := 1; paused := false;
                 listener := Some 2%Q |}
       ([12 # 10; 17 # 10] ++ (21 # 10) :: [25 # 10; 3 # 1]))
    = 21 # 10.
Proof.
  split; [vm_compute; reflexivity |].
  destruct (play_stops_at_end reviewing3 1 2
              {| audio_src := 0; currentTime := 1; paused := false;
                 listener := Some 2%Q |}
              [12 # 10; 17 # 10] [25 # 10; 3 # 1] (21 # 10))
    as (_ & _ & _ & _ & Htime & _).
  - vm_compute; reflexivity.
  - repeat constructor.
  - vm_compute. discriminate.
  - exact Htime.
Defined.
